(** * capstone-Backend: the image-upload services, embedded and verified

    The repository holds two Express programs, [backend-a/index.js] and a
    second, shorter service file.  Each one configures a CORS middleware,
    a health route and one upload route that inserts a row into the shared
    PostgreSQL table [requests] and reads the five newest rows back;
    [backend-a/index.js] has two informational GET routes besides.

    The development is organised as the programs are:
    - [Js]        the JavaScript values the handlers manipulate: Buffers,
                  [Buffer.toString("base64")], [JSON.stringify] of the
                  metadata object, Error objects;
    - [Pg]        the table [requests] of [db/init.sql] and the two SQL
                  statements the handlers send through [pool.query];
    - [Express]   requests, responses, the [res] methods used by the code,
                  route matching, the upload middleware, the default
                  error handler and a small monad for handler bodies
                  (state, exceptions, [try]/[catch], a promise that
                  never settles);
    - [BackendA], [BackendShort]  one module per source file;
    - [Instance]  the two programs with the identity constant and the
                  route prefix as parameters;
    - [Deployment]  both processes on one table, and the vocabulary of
                  the statements;
    - the theorems: base64, the closed forms of the handlers, then one
      theorem per property of the services. *)

From Stdlib Require Import ZArith NArith List String Ascii Bool Lia.
From Stdlib Require Import Strings.Byte.
From Stdlib Require Import Sorting.Sorted Sorting.Permutation.
From Stdlib Require Import DecimalString.
Import ListNotations.
Open Scope string_scope.
Open Scope Z_scope.

(* ================================================================== *)
(** * JavaScript values *)
(* ================================================================== *)

Module Js.

(** A Node [Buffer]: a sequence of bytes. *)
Definition Buffer := list byte.

(** ** [Buffer.prototype.toString("base64")]

    Standard alphabet (RFC 4648), three bytes to four characters, padded
    with [=]. *)

Definition b64_alphabet : list ascii :=
  list_ascii_of_string
    "ABCDEFGHIJKLMNOPQRSTUVWXYZabcdefghijklmnopqrstuvwxyz0123456789+/".

Definition b64_char (n : N) : ascii :=
  nth (N.to_nat n) b64_alphabet "="%char.

Definition sextet1 (a : N) : N := (a / 4)%N.
Definition sextet2 (a b : N) : N := ((a mod 4) * 16 + b / 16)%N.
Definition sextet3 (b c : N) : N := ((b mod 16) * 4 + c / 64)%N.
Definition sextet4 (c : N) : N := (c mod 64)%N.

Fixpoint base64_encode (bs : Buffer) : string :=
  match bs with
  | [] => EmptyString
  | [a] =>
      let x := Byte.to_N a in
      String (b64_char (sextet1 x))
        (String (b64_char (sextet2 x 0)) "==")
  | [a; b] =>
      let x := Byte.to_N a in
      let y := Byte.to_N b in
      String (b64_char (sextet1 x))
        (String (b64_char (sextet2 x y))
           (String (b64_char (sextet3 y 0)) "="))
  | a :: b :: c :: rest =>
      let x := Byte.to_N a in
      let y := Byte.to_N b in
      let z := Byte.to_N c in
      String (b64_char (sextet1 x))
        (String (b64_char (sextet2 x y))
           (String (b64_char (sextet3 y z))
              (String (b64_char (sextet4 z)) (base64_encode rest))))
  end.

(** The inverse reading, used to state that the text determines the
    bytes. *)

Fixpoint index_of (c : ascii) (l : list ascii) (i : N) : option N :=
  match l with
  | [] => None
  | x :: l' => if Ascii.eqb c x then Some i else index_of c l' (N.succ i)
  end.

Definition b64_index (c : ascii) : option N := index_of c b64_alphabet 0%N.

Definition octet1 (s1 s2 : N) : N := (s1 * 4 + s2 / 16)%N.
Definition octet2 (s2 s3 : N) : N := ((s2 mod 16) * 16 + s3 / 4)%N.
Definition octet3 (s3 s4 : N) : N := ((s3 mod 4) * 64 + s4)%N.

Definition bytes_of (ns : list N) : option (list byte) :=
  fold_right
    (fun n acc =>
       match Byte.of_N n, acc with
       | Some b, Some l => Some (b :: l)
       | _, _ => None
       end)
    (Some []) ns.

Definition is_pad (c : ascii) : bool := Ascii.eqb c "="%char.

Fixpoint base64_decode (s : string) : option (list byte) :=
  match s with
  | EmptyString => Some []
  | String c1 (String c2 (String c3 (String c4 rest))) =>
      match b64_index c1, b64_index c2 with
      | Some s1, Some s2 =>
          if is_pad c3 && is_pad c4 then
            match rest with
            | EmptyString => bytes_of [octet1 s1 s2]
            | _ => None
            end
          else
            match b64_index c3 with
            | Some s3 =>
                if is_pad c4 then
                  match rest with
                  | EmptyString => bytes_of [octet1 s1 s2; octet2 s2 s3]
                  | _ => None
                  end
                else
                  match b64_index c4, base64_decode rest with
                  | Some s4, Some tl =>
                      match
                        bytes_of [octet1 s1 s2; octet2 s2 s3; octet3 s3 s4]
                      with
                      | Some hd => Some (hd ++ tl)%list
                      | None => None
                      end
                  | _, _ => None
                  end
            | None => None
            end
      | _, _ => None
      end
  | _ => None
  end.

(** ** Truthiness

    [req.file ? ... : null], [!!image] and [image ? ... : null] test an
    object reference against [undefined]/[null].  Every object is truthy,
    a zero-length Buffer included. *)

Definition truthy {A : Type} (v : option A) : bool :=
  match v with
  | Some _ => true
  | None => false
  end.

(** ** Error objects: what [pool.query] rejects with. *)

Record Error := mkError { message : string }.


(** ** Values handed to [res.json]

    [Date] is what the driver returns for a [timestamp] column and
    [Document] what it returns for a [json]/[jsonb] column: the parsed
    document, identified here by the text it was stored from. *)

Unset Elimination Schemes.
Inductive value : Type :=
| Null
| Bool (b : bool)
| Num (n : Z)
| Str (s : string)
| Date (t : Z)
| Document (text : string)
| Arr (items : list value)
| Obj (fields : list (string * value)).
Set Elimination Schemes.

(** [obj.key] on an object literal. *)
Fixpoint lookup (key : string) (fields : list (string * value)) : option value :=
  match fields with
  | [] => None
  | (k, v) :: rest => if (k =? key)%string then Some v else lookup key rest
  end.

Definition get (key : string) (v : value) : option value :=
  match v with
  | Obj fields => lookup key fields
  | _ => None
  end.

(** [x || d] where [x] is an environment variable: [undefined] and the
    empty string are falsy, every other string is kept as it is. *)
Definition or_default (x : option string) (d : value) : value :=
  match x with
  | Some s => if (s =? "")%string then d else Str s
  | None => d
  end.

(** [String(n)] for an integer. *)
Definition String_of_number (n : Z) : string :=
  NilZero.string_of_int (Z.to_int n).

(** Interpolation of a value in a template literal, for the two shapes
    [PORT] can take. *)
Definition interpolate (v : value) : string :=
  match v with
  | Num n => String_of_number n
  | Str s => s
  | _ => ""
  end.

(** ** The metadata object and [JSON.stringify] *)

Record Meta := mkMeta { uploaded : bool }.

Definition dquote : string := String (ascii_of_nat 34) EmptyString.

Definition JSON_stringify (m : Meta) : string :=
  "{" ++ dquote ++ "uploaded" ++ dquote ++ ":"
      ++ (if uploaded m then "true" else "false") ++ "}".

(** Reading [meta.uploaded] back from a stored document, for documents
    in the form [JSON_stringify] writes. *)
Definition JSON_parse_uploaded (text : string) : option bool :=
  if (text =? JSON_stringify (mkMeta true))%string then Some true
  else if (text =? JSON_stringify (mkMeta false))%string then Some false
  else None.

End Js.

(* ================================================================== *)
(** * The datastore: table [requests] of [db/init.sql] *)
(* ================================================================== *)

Module Pg.
Import Js.

(** One row of
    [requests(id SERIAL PRIMARY KEY, backend_name TEXT NOT NULL,
              ts TIMESTAMP DEFAULT NOW(), meta JSONB, image BYTEA)].
    [ts] counts microseconds; [meta] is the document text; a NULL [image]
    is [None].  The services always supply [meta] and let [ts] default,
    so rows with a NULL in those two columns are not represented. *)
Record Row := mkRow {
  id : Z;
  backend_name : string;
  ts : Z;
  meta : string;
  image : option Buffer
}.

(** The table in insertion order (oldest row first) and the last value
    handed out by the sequence behind [id]. *)
Record Table := mkTable {
  rows : list Row;
  id_seq : Z
}.

Definition empty : Table := mkTable [] 0.

(** [INSERT INTO requests (backend_name, meta, image) VALUES ($1, $2, $3)]
    executed when the server clock reads [now]. *)
Definition inserted_row (now : Z) (name text : string) (img : option Buffer)
    (t : Table) : Row :=
  mkRow (id_seq t + 1) name now text img.

Definition insert_request (now : Z) (name text : string)
    (img : option Buffer) (t : Table) : Table :=
  mkTable (rows t ++ [inserted_row now name text img t]) (id_seq t + 1).

(** The select list [id, backend_name, ts, meta]: a result row has these
    four columns and no other. *)
Record Recent := mkRecent {
  r_id : Z;
  r_backend_name : string;
  r_ts : Z;
  r_meta : string
}.

Definition select_list (r : Row) : Recent :=
  mkRecent (id r) (backend_name r) (ts r) (meta r).

(** [ORDER BY ts DESC]: insertion sort on [ts], largest first.  SQL does
    not fix the order of rows with equal [ts]; this sort keeps them in
    table order. *)
Fixpoint insert_by_ts (r : Row) (sorted : list Row) : list Row :=
  match sorted with
  | [] => [r]
  | x :: rest =>
      if ts x <? ts r then r :: sorted else x :: insert_by_ts r rest
  end.

Definition order_by_ts_desc (l : list Row) : list Row :=
  fold_left (fun acc r => insert_by_ts r acc) l [].

(** [SELECT id, backend_name, ts, meta FROM requests
     ORDER BY ts DESC LIMIT 5]: no WHERE clause. *)
Definition select_recent (t : Table) : list Recent :=
  map select_list (firstn 5 (order_by_ts_desc (rows t))).

(** What SQL itself promises of [ORDER BY ts DESC]: some arrangement of
    the table's rows in which [ts] never increases. *)
Definition ts_ge (a b : Row) : Prop := ts a >= ts b.

Definition admissible_order (table result : list Row) : Prop :=
  Permutation table result /\ StronglySorted ts_ge result.

(** Rows whose timestamps strictly increase with insertion order. *)
Definition ts_lt (a b : Row) : Prop := ts a < ts b.

Definition chronological (l : list Row) : Prop := StronglySorted ts_lt l.

(** The statements [pool.query] is called with, and its result object. *)
Inductive Sql : Type :=
| INSERT_INTO_requests (name text : string) (img : option Buffer)
| SELECT_recent_requests.

Record QueryResult := mkResult { result_rows : list Recent }.

(** The JavaScript object the driver builds for one result row. *)
Definition row_object (r : Recent) : value :=
  Obj [("id", Num (r_id r));
       ("backend_name", Str (r_backend_name r));
       ("ts", Date (r_ts r));
       ("meta", Document (r_meta r))].

End Pg.

(* ================================================================== *)
(** * Express: requests, responses, handler bodies, routing *)
(* ================================================================== *)

Module Express.
Import Js Pg.

(** Request methods. *)
Inductive Method : Type :=
  GET | HEAD | POST | OPTIONS | PUT | PATCH | DELETE.

Definition method_eqb (a b : Method) : bool :=
  match a, b with
  | GET, GET | HEAD, HEAD | POST, POST | OPTIONS, OPTIONS
  | PUT, PUT | PATCH, PATCH | DELETE, DELETE => true
  | _, _ => false
  end.

Definition method_name (m : Method) : string :=
  match m with
  | GET => "GET" | HEAD => "HEAD" | POST => "POST" | OPTIONS => "OPTIONS"
  | PUT => "PUT" | PATCH => "PATCH" | DELETE => "DELETE"
  end.

(** An uploaded file as multer's memory storage holds it: the content is
    in [buffer]. *)
Record File := mkFile { buffer : Buffer }.

(** The body of a request, as the upload middleware meets it.  A request
    without a body, or whose content type is not multipart, is passed on
    unread.  A multipart body is read part by part: [parts] lists its
    file parts (the parts that carry a file name) in the order they
    arrive, each under its field name, up to the point where reading
    ended; [ending] is [None] when the form was read to its end, and
    otherwise the error that stopped the reading (no boundary in the
    content type, the stream ending inside the form, a field name or
    value over the default limits, ...). *)
Inductive Payload : Type :=
| NotMultipart
| Multipart (parts : list (string * File)) (ending : option Error).

(** A request as the handlers see it.  [file] is [req.file]: undefined
    on arrival, set by the upload middleware. *)
Record Request := mkRequest {
  method : Method;
  path : string;
  payload : Payload;
  file : option File
}.

(** The file parts of a form that was read to its end. *)
Definition uploads (req : Request) : list (string * File) :=
  match payload req with
  | Multipart parts None => parts
  | _ => []
  end.

Definition with_file (f : option File) (req : Request) : Request :=
  mkRequest (method req) (path req) (payload req) f.

(** A response body: JSON written by [res.json]; plain text written by
    [res.sendStatus]; the page the framework's final handler builds
    around a text, or around the stack trace of an error; and no body at
    all, which is what a HEAD request is answered with. *)
Inductive Body : Type :=
| Json (v : value)
| Text (s : string)
| ErrorPage (s : string)
| StackPage (err : Error)
| NoBody.

(** [headers] lists what the program sets through [res.header]; headers
    the framework derives from the body are left out. *)
Record Response := mkResponse {
  status : Z;
  headers : list (string * string);
  body : Body
}.

(** [process.env], as far as the programs and the framework read it
    outside the pool configuration. *)
Record ProcessEnv := mkProcessEnv {
  env_PORT : option string;
  env_NODE_ENV : option string
}.

(** The [res] object while a request is being handled.  [req_method] is
    [res.req.method], and [app_env] the [env] setting of the application
    the response belongs to. *)
Record Res := mkRes {
  statusCode : Z;
  header_list : list (string * string);
  sent : option Body;
  req_method : Method;
  app_env : string
}.

Definition fresh_res (env : string) (req : Request) : Res :=
  mkRes 200 [] None (method req) env.

(** Console output: a line of [console.log], the arguments of a
    [console.error] call, and the stack of an error as the framework
    prints it. *)
Inductive LogLine : Type :=
| stdout_line (s : string)
| stderr_line (label : string) (err : Error)
| stderr_stack (err : Error).

(** How a statement can fail to answer: the driver rejects it with an
    error (unreachable server, constraint violation, ...), or its promise
    never settles.  The pool is built without a connection timeout and
    the queries without a query timeout, so nothing in the programs
    bounds the wait. *)
Inductive Fault : Type :=
| Rejects (err : Error)
| NeverSettles.

(** What the datastore does while one request is handled: the clock it
    stamps an insert with, and whether the insert or the select fails,
    and how. *)
Record Env := mkEnv {
  now : Z;
  insert_fault : option Fault;
  select_fault : option Fault
}.

Record State := mkState {
  table : Table;
  console : list LogLine;
  res : Res
}.

(** ** Handler bodies: state, exceptions, [try]/[catch]

    A handler body runs to its end, throws, or stays suspended at an
    [await] whose promise never settles. *)

Inductive Outcome (A : Type) : Type :=
| Ok (a : A)
| Throw (e : Error)
| Pending.
Arguments Ok {A} a.
Arguments Throw {A} e.
Arguments Pending {A}.

Definition M (A : Type) : Type := Env -> State -> Outcome A * State.

Definition ret {A : Type} (a : A) : M A := fun _ s => (Ok a, s).

Definition bind {A B : Type} (m : M A) (k : A -> M B) : M B :=
  fun e s =>
    match m e s with
    | (Ok a, s') => k a e s'
    | (Throw err, s') => (Throw err, s')
    | (Pending, s') => (Pending, s')
    end.

Definition try_catch {A : Type} (body : M A) (handler : Error -> M A) : M A :=
  fun e s =>
    match body e s with
    | (Ok a, s') => (Ok a, s')
    | (Throw err, s') => handler err e s'
    | (Pending, s') => (Pending, s')
    end.

Declare Scope js_scope.
Delimit Scope js_scope with js.
Notation "x <- m ;; k" := (bind m (fun x => k))
  (at level 61, m at next level, right associativity) : js_scope.
Notation "m ;; k" := (bind m (fun _ => k))
  (at level 61, right associativity) : js_scope.
Notation "'try' b 'catch' h" := (try_catch b h)
  (at level 62, b at level 61, h at level 61) : js_scope.
Open Scope js_scope.

(** ** The [res] methods the programs call *)

Definition set_header (k v : string) (hs : list (string * string))
    : list (string * string) :=
  filter (fun kv => negb (fst kv =? k)%string) hs ++ [(k, v)].

Definition with_res (f : Res -> Res) (s : State) : State :=
  mkState (table s) (console s) (f (res s)).

Definition res_header (k v : string) : M unit :=
  fun _ s =>
    (Ok tt,
     with_res (fun r => mkRes (statusCode r) (set_header k v (header_list r))
                          (sent r) (req_method r) (app_env r)) s).

Definition res_status (code : Z) : M unit :=
  fun _ s =>
    (Ok tt,
     with_res (fun r => mkRes code (header_list r) (sent r)
                          (req_method r) (app_env r)) s).

(** Writing the body.  A HEAD request is answered with the status and
    the headers only: the body handed over is not written.  A second
    write on the same response raises. *)
Definition res_send (b : Body) : M unit :=
  fun _ s =>
    match sent (res s) with
    | None =>
        (Ok tt,
         with_res
           (fun r =>
              mkRes (statusCode r) (header_list r)
                (Some (if method_eqb (req_method r) HEAD then NoBody else b))
                (req_method r) (app_env r)) s)
    | Some _ =>
        (Throw (mkError "Cannot set headers after they are sent to the client"),
         s)
    end.

Definition res_json (v : value) : M unit := res_send (Json v).

(** [res.sendStatus(code)] sets the status code and sends the registered
    status message of that code as the text body. *)
Definition status_message (code : Z) : string :=
  if code =? 200 then "OK"
  else if code =? 404 then "Not Found"
  else if code =? 500 then "Internal Server Error"
  else String_of_number code.

Definition res_sendStatus (code : Z) : M unit :=
  res_status code ;; res_send (Text (status_message code)).

Definition console_error (label : string) (err : Error) : M unit :=
  fun _ s =>
    (Ok tt,
     mkState (table s) (console s ++ [stderr_line label err]) (res s)).

(** ** [pool.query]

    Resolves with the statement's result, rejects with the error the
    datastore raises, or never settles; a statement that does not answer
    leaves the table as it was. *)
Definition pool_query (q : Sql) : M QueryResult :=
  fun e s =>
    match q with
    | INSERT_INTO_requests name text img =>
        match insert_fault e with
        | Some (Rejects err) => (Throw err, s)
        | Some NeverSettles => (Pending, s)
        | None =>
            (Ok (mkResult []),
             mkState (insert_request (now e) name text img (table s))
               (console s) (res s))
        end
    | SELECT_recent_requests =>
        match select_fault e with
        | Some (Rejects err) => (Throw err, s)
        | Some NeverSettles => (Pending, s)
        | None => (Ok (mkResult (select_recent (table s))), s)
        end
    end.

(** ** Routing

    A route path matches as Express matches it by default: letter case is
    ignored and one trailing slash is optional. *)

Definition lower_char (c : ascii) : ascii :=
  let n := nat_of_ascii c in
  if ((65 <=? n) && (n <=? 90))%nat then ascii_of_nat (n + 32) else c.

Fixpoint lower (s : string) : string :=
  match s with
  | EmptyString => EmptyString
  | String c rest => String (lower_char c) (lower rest)
  end.

Definition route_match (pattern path : string) : bool :=
  let p := lower path in
  if (pattern =? "/")%string then (p =? "/")%string || (p =? "")%string
  else (p =? lower pattern)%string || (p =? lower pattern ++ "/")%string.

(** What a middleware does with the request: answer it, or call
    [next()]. *)
Inductive Flow : Type := Next | Done.

(** The layers registered by [app.use], [app.get] and [app.post], in the
    order of registration. *)
Inductive Layer : Type :=
| Use (mw : Request -> M Flow)
| Route (m : Method) (pattern : string) (h : Request -> M unit).

(** An application: its [env] setting, read from [NODE_ENV] when the
    application is created, and its layers. *)
Record App := mkApp {
  settings_env : string;
  stack : list Layer
}.

(** [process.env.NODE_ENV || "development"] *)
Definition node_env (penv : ProcessEnv) : string :=
  match env_NODE_ENV penv with
  | None => "development"
  | Some "" => "development"
  | Some s => s
  end.

(** A route registered for one method takes the requests of that method;
    a route registered for GET takes HEAD requests as well. *)
Definition handles (m requested : Method) : bool :=
  method_eqb m requested
  || (method_eqb requested HEAD && method_eqb m GET).

(** No layer answered: the framework's final handler replies 404. *)
Definition finalhandler (req : Request) : M unit :=
  res_status 404 ;;
  res_send
    (ErrorPage ("Cannot " ++ method_name (method req) ++ " " ++ path req)).

Fixpoint handle (layers : list Layer) (req : Request) : M unit :=
  match layers with
  | [] => finalhandler req
  | Use mw :: rest =>
      flow <- mw req ;;
      match flow with
      | Next => handle rest req
      | Done => ret tt
      end
  | Route m pattern h :: rest =>
      if handles m (method req) && route_match pattern (path req)
      then h req
      else handle rest req
  end.

(** The framework's default error handler, reached when a middleware
    passes an error to [next].  Unless the [env] setting is [test], the
    error's stack is written to the console.  An error without a status
    of its own is answered with the status the response has if that is
    an error status, and with 500 otherwise; the page shows the error's
    stack, or, when the [env] setting is [production], the status
    message only. *)
Definition console_stack (err : Error) : M unit :=
  fun _ s =>
    (Ok tt, mkState (table s) (console s ++ [stderr_stack err]) (res s)).

Definition error_status (r : Res) : Z :=
  if (400 <=? statusCode r) && (statusCode r <? 600)
  then statusCode r
  else 500.

Definition error_handler (err : Error) : M unit :=
  fun e s =>
    let env := app_env (res s) in
    let code := error_status (res s) in
    ((if (env =? "test")%string then ret tt else console_stack err) ;;
     res_status code ;;
     res_send
       (if (env =? "production")%string
        then ErrorPage (status_message code)
        else StackPage err)) e s.

(** ** [multer({ storage: multer.memoryStorage() })] and [upload.single]

    [single(name)] accepts one file, under field [name].  A body that is
    not multipart is passed on unread.  While a multipart body is read, a
    file part under any other field, or a second one under [name], is
    refused with the error [Unexpected field]; and reading can stop on
    an error of its own.  The first error met goes to [next], and the
    route handler then does not run.  Otherwise [req.file] is the accepted
    file, or stays undefined when the request carried none. *)
Definition unexpected_field : Error := mkError "Unexpected field".

Fixpoint single_from (name : string) (taken : option File)
    (parts : list (string * File)) : Error + option File :=
  match parts with
  | [] => inr taken
  | (fieldname, f) :: rest =>
      if (fieldname =? name)%string then
        match taken with
        | None => single_from name (Some f) rest
        | Some _ => inl unexpected_field
        end
      else inl unexpected_field
  end.

Definition single (name : string) (b : Payload) : Error + option File :=
  match b with
  | NotMultipart => inr None
  | Multipart parts ending =>
      match single_from name None parts with
      | inl err => inl err
      | inr f =>
          match ending with
          | None => inr f
          | Some err => inl err
          end
      end
  end.

Definition upload_single (name : string) (h : Request -> M unit)
    (req : Request) : M unit :=
  match single name (payload req) with
  | inr f => h (with_file f req)
  | inl err => error_handler err
  end.

(** ** The server process

    [stdio] is what the process has written to its console.  An exception
    that escapes a handler (only an [async] handler can let one escape
    here) is an unhandled promise rejection, which ends the process: it
    answers nothing from then on.  A handler that stays suspended leaves
    the process running; the request has the reply that was sent before,
    if any. *)
Record Process := mkProcess {
  stdio : list LogLine;
  alive : bool
}.

Inductive Reply : Type :=
| Responded (r : Response)
| Crashed (err : Error)
| NoReply.

Definition reply_of (r : Res) : Reply :=
  match sent r with
  | Some b => Responded (mkResponse (statusCode r) (header_list r) b)
  | None => NoReply
  end.

Definition serve (app : App) (e : Env) (req : Request)
    (p : Process) (t : Table) : Reply * (Process * Table) :=
  if alive p then
    match
      handle (stack app) req e
        (mkState t (stdio p) (fresh_res (settings_env app) req))
    with
    | (Ok _, s) => (reply_of (res s), (mkProcess (console s) true, table s))
    | (Pending, s) =>
        (reply_of (res s), (mkProcess (console s) true, table s))
    | (Throw err, s) =>
        (Crashed err, (mkProcess (console s) false, table s))
    end
  else (NoReply, (p, t)).

(** [app.listen(PORT, callback)]: the process starts, and the callback
    writes its line. *)
Definition listen (line : string) : Process :=
  mkProcess [stdout_line line] true.

End Express.

(* ================================================================== *)
(** * [backend-a/index.js] *)
(* ================================================================== *)

Module BackendA.
Import Js Pg Express.

(** [const PORT = process.env.PORT || 8080] *)
Definition PORT (penv : ProcessEnv) : value :=
  or_default (env_PORT penv) (Num 8080).

Definition BACKEND : string := "backend-a".

(** [app.use((req, res, next) => ...)]: the CORS middleware. *)
Definition cors (req : Request) : M Flow :=
  res_header "Access-Control-Allow-Origin" "*" ;;
  res_header "Access-Control-Allow-Methods" "GET, POST, OPTIONS" ;;
  res_header "Access-Control-Allow-Headers" "Content-Type" ;;
  if method_eqb (method req) OPTIONS
  then (res_sendStatus 200 ;; ret Done)
  else ret Next.

(** [app.get("/", ...)] *)
Definition get_root (req : Request) : M unit :=
  res_json
    (Obj [("backend", Str BACKEND);
          ("message", Str "Backend service is running");
          ("endpoints",
           Obj [("health", Str "/health");
                ("api", Str "/api/a (POST for data submission)")])]).

(** [app.get("/health", ...)] *)
Definition get_health (penv : ProcessEnv) (req : Request) : M unit :=
  res_json
    (Obj [("status", Str "ok");
          ("backend", Str BACKEND);
          ("port", PORT penv)]).

(** [app.get("/api/a", ...)] *)
Definition get_api_a (req : Request) : M unit :=
  res_json
    (Obj [("backend", Str BACKEND);
          ("message", Str "Use POST to submit data");
          ("endpoint", Str "/api/a")]).

(** [app.post("/api/a", upload.single("image"), async (req, res) => ...)] *)
Definition post_api_a (req : Request) : M unit :=
  try
    (let image :=
       match file req with
       | Some f => Some (buffer f)
       | None => None
       end in
     let meta := mkMeta (truthy image) in
     _ <- pool_query (INSERT_INTO_requests BACKEND (JSON_stringify meta) image) ;;
     result <- pool_query SELECT_recent_requests ;;
     res_json
       (Obj [("backend", Str BACKEND);
             ("rows", Arr (map row_object (result_rows result)));
             ("uploadedImage",
              match image with
              | Some b => Str (base64_encode b)
              | None => Null
              end)]))
  catch
    (fun err =>
       console_error "Database error:" err ;;
       res_status 500 ;;
       res_json
         (Obj [("error", Str "Database not responding");
               ("details", Str (message err))])).

(** [const app = express()], with the layers in the order the program
    registers them. *)
Definition app (penv : ProcessEnv) : App :=
  mkApp (node_env penv)
    [Use cors;
     Route GET "/" get_root;
     Route GET "/health" (get_health penv);
     Route GET "/api/a" get_api_a;
     Route POST "/api/a" (upload_single "image" post_api_a)].

(** [app.listen(PORT, () => console.log(...))] *)
Definition start (penv : ProcessEnv) : Process :=
  listen (BACKEND ++ " listening on port " ++ interpolate (PORT penv)).

End BackendA.

(* ================================================================== *)
(** * The second service file

    The same server in its short form: no header comments, and neither
    the [GET /] nor the [GET /api/a] route. *)
(* ================================================================== *)

Module BackendShort.
Import Js Pg Express.

Definition PORT (penv : ProcessEnv) : value :=
  or_default (env_PORT penv) (Num 8080).

Definition BACKEND : string := "backend-a".

Definition cors (req : Request) : M Flow :=
  res_header "Access-Control-Allow-Origin" "*" ;;
  res_header "Access-Control-Allow-Methods" "GET, POST, OPTIONS" ;;
  res_header "Access-Control-Allow-Headers" "Content-Type" ;;
  if method_eqb (method req) OPTIONS
  then (res_sendStatus 200 ;; ret Done)
  else ret Next.

Definition get_health (penv : ProcessEnv) (req : Request) : M unit :=
  res_json
    (Obj [("status", Str "ok");
          ("backend", Str BACKEND);
          ("port", PORT penv)]).

Definition post_api_a (req : Request) : M unit :=
  try
    (let image :=
       match file req with
       | Some f => Some (buffer f)
       | None => None
       end in
     let meta := mkMeta (truthy image) in
     _ <- pool_query (INSERT_INTO_requests BACKEND (JSON_stringify meta) image) ;;
     result <- pool_query SELECT_recent_requests ;;
     res_json
       (Obj [("backend", Str BACKEND);
             ("rows", Arr (map row_object (result_rows result)));
             ("uploadedImage",
              match image with
              | Some b => Str (base64_encode b)
              | None => Null
              end)]))
  catch
    (fun err =>
       console_error "Database error:" err ;;
       res_status 500 ;;
       res_json
         (Obj [("error", Str "Database not responding");
               ("details", Str (message err))])).

Definition app (penv : ProcessEnv) : App :=
  mkApp (node_env penv)
    [Use cors;
     Route GET "/health" (get_health penv);
     Route POST "/api/a" (upload_single "image" post_api_a)].

Definition start (penv : ProcessEnv) : Process :=
  listen (BACKEND ++ " listening on port " ++ interpolate (PORT penv)).

End BackendShort.

(* ================================================================== *)
(** * The programs with their two constants as parameters

    A second instance of the service is the same program under another
    identity and another route prefix.  [full] is [backend-a/index.js]
    and [short] the second service file, each with the identity constant
    and the path [/api/a] replaced by parameters wherever they occur: in
    the paths of the routes and in the texts of the replies. *)
(* ================================================================== *)

Module Instance.
Import Js Pg Express.

Section Constants.

Variables (BACKEND prefix : string).

Definition get_root (req : Request) : M unit :=
  res_json
    (Obj [("backend", Str BACKEND);
          ("message", Str "Backend service is running");
          ("endpoints",
           Obj [("health", Str "/health");
                ("api", Str (prefix ++ " (POST for data submission)"))])]).

Definition get_health (penv : ProcessEnv) (req : Request) : M unit :=
  res_json
    (Obj [("status", Str "ok");
          ("backend", Str BACKEND);
          ("port", BackendA.PORT penv)]).

Definition get_api (req : Request) : M unit :=
  res_json
    (Obj [("backend", Str BACKEND);
          ("message", Str "Use POST to submit data");
          ("endpoint", Str prefix)]).

Definition post_api (req : Request) : M unit :=
  try
    (let image :=
       match file req with
       | Some f => Some (buffer f)
       | None => None
       end in
     let meta := mkMeta (truthy image) in
     _ <- pool_query (INSERT_INTO_requests BACKEND (JSON_stringify meta) image) ;;
     result <- pool_query SELECT_recent_requests ;;
     res_json
       (Obj [("backend", Str BACKEND);
             ("rows", Arr (map row_object (result_rows result)));
             ("uploadedImage",
              match image with
              | Some b => Str (base64_encode b)
              | None => Null
              end)]))
  catch
    (fun err =>
       console_error "Database error:" err ;;
       res_status 500 ;;
       res_json
         (Obj [("error", Str "Database not responding");
               ("details", Str (message err))])).

Definition full (penv : ProcessEnv) : App :=
  mkApp (node_env penv)
    [Use BackendA.cors;
     Route GET "/" get_root;
     Route GET "/health" (get_health penv);
     Route GET prefix get_api;
     Route POST prefix (upload_single "image" post_api)].

Definition short (penv : ProcessEnv) : App :=
  mkApp (node_env penv)
    [Use BackendA.cors;
     Route GET "/health" (get_health penv);
     Route POST prefix (upload_single "image" post_api)].

End Constants.

End Instance.

(* ================================================================== *)
(** * The two programs running against one table *)
(* ================================================================== *)

Module Deployment.
Import Js Pg Express.

(** [Full] is [backend-a/index.js], [Short] the second service file. *)
Inductive Service : Type := Full | Short.

Definition program (penv : ProcessEnv) (i : Service) : App :=
  match i with
  | Full => BackendA.app penv
  | Short => BackendShort.app penv
  end.

(** Both processes and the table they share. *)
Record System := mkSystem {
  full : Process;
  short : Process;
  requests : Table
}.

(** One request, the program that receives it and what the datastore
    does meanwhile. *)
Record Call := mkCall {
  target : Service;
  env : Env;
  request : Request
}.

Definition step (penv : ProcessEnv) (c : Call) (s : System)
    : Reply * System :=
  match target c with
  | Full =>
      let '(r, (p, t)) :=
        serve (program penv Full) (env c) (request c) (full s) (requests s) in
      (r, mkSystem p (short s) t)
  | Short =>
      let '(r, (p, t)) :=
        serve (program penv Short) (env c) (request c) (short s) (requests s) in
      (r, mkSystem (full s) p t)
  end.

(** Requests handled one after the other. *)
Fixpoint run (penv : ProcessEnv) (calls : list Call) (s : System)
    : list Reply * System :=
  match calls with
  | [] => ([], s)
  | c :: rest =>
      let '(r, s1) := step penv c s in
      let '(rs, s2) := run penv rest s1 in
      (r :: rs, s2)
  end.

(** ** Vocabulary of the statements *)

(** The three headers the CORS middleware sets. *)
Definition cors_headers : list (string * string) :=
  [("Access-Control-Allow-Origin", "*");
   ("Access-Control-Allow-Methods", "GET, POST, OPTIONS");
   ("Access-Control-Allow-Headers", "Content-Type")].

(** A POST addressed to the upload route. *)
Definition is_upload (req : Request) : Prop :=
  method req = POST /\ route_match "/api/a" (path req) = true.

(** The first datastore failure of a request, if any: the insert is sent
    first, the select only after the insert went through. *)
Definition first_fault (e : Env) : option Fault :=
  match insert_fault e with
  | Some fault => Some fault
  | None => select_fault e
  end.

(** The requests that go to the two informational GET routes of
    [backend-a/index.js] when its route prefix is [prefix]; a HEAD
    request is routed as the GET request would be. *)
Definition informational (prefix : string) (req : Request) : bool :=
  handles GET (method req)
  && (route_match "/" (path req) || route_match prefix (path req)).

(** The JSON body of a response, and one of its fields. *)
Definition json_of (r : Response) : option value :=
  match body r with
  | Json v => Some v
  | _ => None
  end.

Definition field (key : string) (r : Response) : option value :=
  match json_of r with
  | Some v => get key v
  | None => None
  end.

(** The [id] of each entry of the [rows] field, in the order listed. *)
Definition row_ids (r : Response) : option (list (option value)) :=
  match field "rows" r with
  | Some (Arr l) => Some (map (get "id") l)
  | _ => None
  end.

Definition is_number (v : value) : bool :=
  match v with
  | Num _ => true
  | _ => false
  end.

(** [meta.uploaded] is true exactly when [image] is not NULL. *)
Definition flag_matches_image (r : Row) : Prop :=
  JSON_parse_uploaded (meta r) = Some (truthy (image r)).

(** The (up to) five most recently inserted rows, newest first, restricted
    to the selected columns. *)
Definition newest_first (t : Table) : list Recent :=
  map select_list (firstn 5 (rev (rows t))).

(** An upload the middleware accepts, during which the datastore answers
    both statements. *)
Definition clean_upload (c : Call) : Prop :=
  is_upload (request c)
  /\ (exists f, single "image" (payload (request c)) = inr f)
  /\ first_fault (env c) = None.

(** The clock readings of successive calls strictly increase, starting
    above [t0]. *)
Fixpoint clock_advances (t0 : Z) (calls : list Call) : Prop :=
  match calls with
  | [] => True
  | c :: rest => t0 < now (env c) /\ clock_advances (now (env c)) rest
  end.

(** Every row of the list is stamped no later than [t0]. *)
Definition stamped_by (t0 : Z) (l : list Row) : Prop :=
  Forall (fun r => ts r <= t0) l.

(** Result rows in which [ts] never increases. *)
Definition descending (l : list Recent) : Prop :=
  StronglySorted (fun a b => r_ts a >= r_ts b) l.

End Deployment.

(** Concrete inputs used by the examples. *)
Module Samples.
Import Js Pg Express Deployment.

(** No [PORT] in the environment, and [PORT=3000] as the deployments set
    it; [NODE_ENV] is unset in both. *)
Definition bare : ProcessEnv := mkProcessEnv None None.
Definition cluster : ProcessEnv := mkProcessEnv (Some "3000") None.

(** A datastore that answers, with its clock at [clock]. *)
Definition answering (clock : Z) : Env := mkEnv clock None None.

Definition refused : Error := mkError "connect ECONNREFUSED 10.0.0.4:5432".

(** A datastore that is down, and one that takes the insert and then
    fails the select. *)
Definition down : Env :=
  mkEnv 50 (Some (Rejects refused)) (Some (Rejects refused)).
Definition lost_after_insert : Env := mkEnv 50 None (Some (Rejects refused)).

(** A datastore whose insert never settles. *)
Definition stalled : Env := mkEnv 50 (Some NeverSettles) None.

Definition ten_bytes : Buffer :=
  [x89; x50; x4e; x47; x0d; x0a; x1a; x0a; x00; xff].

(** A form with a file under field [image]; a form with no file at
    all; and a form with a file under field [file]. *)
Definition post_file (b : Buffer) : Request :=
  mkRequest POST "/api/a" (Multipart [("image", mkFile b)] None) None.

Definition post_nothing : Request :=
  mkRequest POST "/api/a" (Multipart [] None) None.

Definition post_misfiled : Request :=
  mkRequest POST "/api/a" (Multipart [("file", mkFile ten_bytes)] None) None.

(** A form without any file whose stream ends before its closing
    boundary. *)
Definition post_unfinished : Request :=
  mkRequest POST "/api/a"
    (Multipart [] (Some (mkError "Unexpected end of form"))) None.

Definition get_of (p : string) : Request := mkRequest GET p NotMultipart None.

Definition options_of (p : string) : Request :=
  mkRequest OPTIONS p NotMultipart None.

(** Both processes freshly started on an empty table, and seven uploads
    sent one after the other, to either program in turn. *)
Definition fresh : System :=
  mkSystem (BackendA.start bare) (BackendShort.start bare) Pg.empty.

Definition first_six : list Call :=
  [mkCall Full (answering 1) (post_file ten_bytes);
   mkCall Short (answering 2) post_nothing;
   mkCall Short (answering 3) (post_file []);
   mkCall Full (answering 4) post_nothing;
   mkCall Short (answering 5) (post_file ten_bytes);
   mkCall Full (answering 6) post_nothing].

(** A table that another writer, [backend-b], has already filled. *)
Definition seeded : Table :=
  mkTable
    [mkRow 1 "backend-b" 10 (JSON_stringify (mkMeta false)) None;
     mkRow 2 "backend-b" 20 (JSON_stringify (mkMeta false)) None;
     mkRow 3 "backend-b" 30 (JSON_stringify (mkMeta true)) (Some ten_bytes)]
    3.

Definition seventh : Call := mkCall Short (answering 7) (post_file ten_bytes).

(** A seventh upload that the datastore stamps at the same instant as
    the sixth. *)
Definition tied_seventh : Call :=
  mkCall Short (answering 6) (post_file ten_bytes).

(** A table whose five rows are stamped ahead of the clock readings used
    in the examples. *)
Definition ahead : Table :=
  mkTable
    [mkRow 1 "backend-b" 1000 (JSON_stringify (mkMeta false)) None;
     mkRow 2 "backend-b" 1001 (JSON_stringify (mkMeta false)) None;
     mkRow 3 "backend-b" 1002 (JSON_stringify (mkMeta false)) None;
     mkRow 4 "backend-b" 1003 (JSON_stringify (mkMeta false)) None;
     mkRow 5 "backend-b" 1004 (JSON_stringify (mkMeta false)) None]
    5.

End Samples.

(* ================================================================== *)
(** * Further vocabulary: routes and keys *)
(* ================================================================== *)

Module Routes.
Import Js Pg Express Deployment.

(** The requests a program has a layer for: every OPTIONS request (the
    CORS middleware), and the routes it registers, a GET route taking
    HEAD requests too. *)
Definition served (i : Service) (req : Request) : bool :=
  match method req with
  | OPTIONS => true
  | GET | HEAD =>
      route_match "/health" (path req)
      || match i with
         | Full =>
             route_match "/" (path req) || route_match "/api/a" (path req)
         | Short => false
         end
  | POST => route_match "/api/a" (path req)
  | _ => false
  end.

(** The status of a reply, when there is one. *)
Definition status_of (r : Reply) : option Z :=
  match r with
  | Responded resp => Some (status resp)
  | _ => None
  end.

(** Every [id] in the table was handed out by the sequence. *)
Definition seq_covers (t : Table) : Prop :=
  Forall (fun r => id r <= id_seq t) (rows t).

(** The rows of the table stamped later than [clock]. *)
Definition stamped_after (clock : Z) (l : list Row) : list Row :=
  filter (fun r => clock <? ts r) l.

End Routes.

(* ================================================================== *)
(** * The connection pool configuration

    [new Pool({ host: ..., port: ..., ..., ssl: ... })], the same object
    literal in both service files. *)
(* ================================================================== *)

Module Pool.
Import Js.

(** The [DB_*] variables of [process.env]; an unset variable is
    [undefined]. *)
Record DbEnv := mkDbEnv {
  DB_HOST : option string;
  DB_PORT : option string;
  DB_USER : option string;
  DB_PASSWORD : option string;
  DB_NAME : option string;
  DB_SSL : option string
}.

(** [x === s] for an environment variable and a string literal. *)
Definition strict_equal (x : option string) (s : string) : bool :=
  match x with
  | Some v => (v =? s)%string
  | None => false
  end.

Record SslOptions := mkSsl { rejectUnauthorized : bool }.

(** The object handed to [new Pool].  [ssl: false] is [None]. *)
Record Config := mkConfig {
  host : option string;
  port : value;
  user : option string;
  password : option string;
  database : option string;
  ssl : option SslOptions
}.

Definition config (env : DbEnv) : Config :=
  mkConfig
    (DB_HOST env)
    (or_default (DB_PORT env) (Num 5432))
    (DB_USER env)
    (DB_PASSWORD env)
    (DB_NAME env)
    (if strict_equal (DB_SSL env) "require"
     then Some (mkSsl false)
     else None).

End Pool.

(* ================================================================== *)
(** * [deploy-backend.sh]

    The script runs under [set -e]: the first command that returns a
    status other than zero ends it with that status.  [echo] lines are
    collected in [output]; what [az] and [kubectl] print themselves is
    not. *)
(* ================================================================== *)

Module DeployScript.

Inductive Command : Type :=
| az (args : list string)
| kubectl (args : list string).

Inductive Step : Type :=
| Echo (line : string)
| Exec (c : Command).

Record Result := mkResult {
  output : list string;
  executed : list Command;
  exit_status : Z
}.

(** A sequence of simple commands under [set -e]; [status] is what each
    external command returns. *)
Fixpoint run_steps (status : Command -> Z) (steps : list Step) : Result :=
  match steps with
  | [] => mkResult [] [] 0
  | Echo line :: rest =>
      let r := run_steps status rest in
      mkResult (line :: output r) (executed r) (exit_status r)
  | Exec c :: rest =>
      if status c =? 0 then
        let r := run_steps status rest in
        mkResult (output r) (c :: executed r) (exit_status r)
      else mkResult [] [c] (status c)
  end.

Definition rule : string :=
  "================================================".

(** The body of the script for arguments [args]. *)
Definition script (args : list string) (status : Command -> Z) : Result :=
  let ENV := hd "" args in
  if (ENV =? "")%string then
    mkResult
      ["Usage: ./deploy-backend.sh <environment>";
       "Example: ./deploy-backend.sh dev"]
      [] 1
  else if negb (ENV =? "dev")%string && negb (ENV =? "qa")%string
          && negb (ENV =? "prod")%string then
    mkResult ["Error: Environment must be dev, qa, or prod"] [] 1
  else
    let '(ACR_NAME, RG_NAME, AKS_NAME) :=
      if (ENV =? "dev")%string then
        ("gopaldevacr", "rg-gopal-dev", "aks-gopal-dev")
      else if (ENV =? "qa")%string then
        ("gopalqaacr", "rg-gopal-qa", "aks-gopal-qa")
      else
        ("gopalprodacr", "rg-gopal-prod", "aks-gopal-prod") in
    run_steps status
      [Echo rule;
       Echo ("Deploying Backend Services to " ++ ENV);
       Echo rule;
       Echo "Step 1/4: Logging into ACR...";
       Exec (az ["acr"; "login"; "--name"; ACR_NAME]);
       Echo "Step 2/4: Building and pushing backend-a...";
       Exec (az ["acr"; "build"; "--registry"; ACR_NAME;
                 "--image"; "backend-a:" ++ ENV;
                 "--file"; "backend-a/Dockerfile"; "backend-a/"]);
       Echo "Step 3/4: Building and pushing backend-b...";
       Exec (az ["acr"; "build"; "--registry"; ACR_NAME;
                 "--image"; "backend-b:" ++ ENV;
                 "--file"; "backend-b/Dockerfile"; "backend-b/"]);
       Echo "Step 4/4: Deploying to AKS...";
       Exec (az ["aks"; "get-credentials"; "--resource-group"; RG_NAME;
                 "--name"; AKS_NAME; "--overwrite-existing"]);
       Exec (kubectl ["apply"; "-f"; "k8s/" ++ ENV ++ "/"]);
       Echo "";
       Echo rule;
       Echo "Deployment Complete!";
       Echo rule;
       Echo "";
       Echo "Verifying deployment...";
       Exec (kubectl ["get"; "pods"; "-n"; "gopal-app-" ++ ENV]);
       Echo "";
       Exec (kubectl ["get"; "services"; "-n"; "gopal-app-" ++ ENV]);
       Echo "";
       Echo "Get LoadBalancer IP:";
       Echo ("kubectl get service gopal-api-gateway -n gopal-app-" ++ ENV)].

(** ** Vocabulary of the statements *)

Definition known_environment (ENV : string) : Prop :=
  ENV = "dev" \/ ENV = "qa" \/ ENV = "prod".

(** The commands of a deployment to [ENV], every resource named after
    [ENV] by one scheme. *)
Definition login (ENV : string) : Command :=
  az ["acr"; "login"; "--name"; "gopal" ++ ENV ++ "acr"].

Definition build (service ENV : string) : Command :=
  az ["acr"; "build"; "--registry"; "gopal" ++ ENV ++ "acr";
      "--image"; service ++ ":" ++ ENV;
      "--file"; service ++ "/Dockerfile"; service ++ "/"].

Definition get_credentials (ENV : string) : Command :=
  az ["aks"; "get-credentials"; "--resource-group"; "rg-gopal-" ++ ENV;
      "--name"; "aks-gopal-" ++ ENV; "--overwrite-existing"].

Definition apply_manifests (ENV : string) : Command :=
  kubectl ["apply"; "-f"; "k8s/" ++ ENV ++ "/"].

Definition get_pods (ENV : string) : Command :=
  kubectl ["get"; "pods"; "-n"; "gopal-app-" ++ ENV].

Definition get_services (ENV : string) : Command :=
  kubectl ["get"; "services"; "-n"; "gopal-app-" ++ ENV].

Definition plan (ENV : string) : list Command :=
  [login ENV; build "backend-a" ENV; build "backend-b" ENV;
   get_credentials ENV; apply_manifests ENV; get_pods ENV; get_services ENV].

(** The external commands among the steps of a script. *)
Fixpoint commands_of (steps : list Step) : list Command :=
  match steps with
  | [] => []
  | Echo _ :: rest => commands_of rest
  | Exec c :: rest => c :: commands_of rest
  end.

(** The commands of a list up to and including the first that fails. *)
Fixpoint attempted (status : Command -> Z) (cs : list Command)
    : list Command :=
  match cs with
  | [] => []
  | c :: rest =>
      if status c =? 0 then c :: attempted status rest else [c]
  end.

End DeployScript.

(** More concrete inputs. *)
Module MoreSamples.
Import Js Pg Express Deployment Samples.

(** Process environments with [NODE_ENV] set. *)
Definition production : ProcessEnv := mkProcessEnv None (Some "production").
Definition testing : ProcessEnv := mkProcessEnv None (Some "test").

(** Two files under [image] in one request. *)
Definition post_two_files : Request :=
  mkRequest POST "/api/a"
    (Multipart [("image", mkFile ten_bytes); ("image", mkFile [])] None)
    None.

(** An environment that asks for TLS, and one that almost does. *)
Definition tls_env : Pool.DbEnv :=
  Pool.mkDbEnv (Some "db.example") None (Some "app") (Some "secret")
    (Some "appdb") (Some "require").

Definition no_tls_env : Pool.DbEnv :=
  Pool.mkDbEnv (Some "db.example") (Some "6432") (Some "app") (Some "secret")
    (Some "appdb") (Some "REQUIRE").

(** Every command succeeds; and the build of [backend-b] fails. *)
Definition all_succeed (c : DeployScript.Command) : Z := 0.

Definition second_build_fails (c : DeployScript.Command) : Z :=
  match c with
  | DeployScript.az ("acr" :: "build" :: _ :: _ :: _ :: image :: _) =>
      if (image =? "backend-b:qa")%string then 2 else 0
  | _ => 0
  end.

End MoreSamples.

(* ================================================================== *)
(** * Base64: the text determines the bytes *)
(* ================================================================== *)

Import Js.

(** The test vectors of RFC 4648, section 10. *)
Example base64_rfc4648_vectors :
  base64_encode [] = ""
  /\ base64_encode [x66] = "Zg=="
  /\ base64_encode [x66; x6f] = "Zm8="
  /\ base64_encode [x66; x6f; x6f] = "Zm9v"
  /\ base64_encode [x66; x6f; x6f; x62] = "Zm9vYg=="
  /\ base64_encode [x66; x6f; x6f; x62; x61] = "Zm9vYmE="
  /\ base64_encode [x66; x6f; x6f; x62; x61; x72] = "Zm9vYmFy".
Proof. repeat split. Qed.

(** Each of the 64 characters of the alphabet reads back as its index,
    and none of them is the padding character. *)
Lemma b64_index_char (n : N) : (n < 64)%N -> b64_index (b64_char n) = Some n.
Proof.
  intros H.
  rewrite <- (N2Nat.id n) in *.
  assert (Hk : (N.to_nat n < 64)%nat) by lia.
  generalize dependent (N.to_nat n). intros k _ Hk.
  do 64 (destruct k as [|k]; [reflexivity|]). lia.
Qed.

Lemma b64_char_not_pad (n : N) : (n < 64)%N -> is_pad (b64_char n) = false.
Proof.
  intros H.
  rewrite <- (N2Nat.id n) in *.
  assert (Hk : (N.to_nat n < 64)%nat) by lia.
  generalize dependent (N.to_nat n). intros k _ Hk.
  do 64 (destruct k as [|k]; [reflexivity|]). lia.
Qed.

(** Splitting three octets into four sextets and back, over [N]. *)
Ltac n_arith := zify; Z.to_euclidean_division_equations; lia.

Lemma sextet1_lt x : (x < 256 -> sextet1 x < 64)%N.
Proof. unfold sextet1. intros. apply N.Div0.div_lt_upper_bound; lia. Qed.

Lemma sextet2_lt x y : (y < 256 -> sextet2 x y < 64)%N.
Proof.
  unfold sextet2. intros.
  assert (x mod 4 < 4)%N by (apply N.mod_lt; lia).
  assert (y / 16 < 16)%N by (apply N.Div0.div_lt_upper_bound; lia).
  lia.
Qed.

Lemma octet1_sextets x y : (y < 256 -> octet1 (sextet1 x) (sextet2 x y) = x)%N.
Proof.
  unfold octet1, sextet1, sextet2. intros. n_arith.
Qed.

Lemma sextet3_lt y z : (z < 256 -> sextet3 y z < 64)%N.
Proof. unfold sextet3. intros. n_arith. Qed.

Lemma sextet4_lt z : (sextet4 z < 64)%N.
Proof. unfold sextet4. n_arith. Qed.

Lemma octet2_sextets x y z :
  (y < 256 -> z < 256 -> octet2 (sextet2 x y) (sextet3 y z) = y)%N.
Proof. unfold octet2, sextet2, sextet3. intros. n_arith. Qed.

Lemma octet3_sextets y z :
  (z < 256 -> octet3 (sextet3 y z) (sextet4 z) = z)%N.
Proof. unfold octet3, sextet3, sextet4. intros. n_arith. Qed.

Lemma byte_lt_256 (b : byte) : (Byte.to_N b < 256)%N.
Proof. pose proof (Byte.to_N_bounded b). lia. Qed.

(** Induction three elements at a time, as the encoder recurses. *)
Lemma list_ind3 {A : Type} (P : list A -> Prop) :
  P [] ->
  (forall a, P [a]) ->
  (forall a b, P [a; b]) ->
  (forall a b c l, P l -> P (a :: b :: c :: l)) ->
  forall l, P l.
Proof.
  intros H0 H1 H2 H3.
  fix IH 1.
  intros [|a [|b [|c l]]];
    [exact H0 | apply H1 | apply H2 | apply H3, IH].
Qed.

Lemma decode_group (a b c : byte) (rest : string) (tl : list byte) :
  base64_decode rest = Some tl ->
  base64_decode
    (String (b64_char (sextet1 (Byte.to_N a)))
       (String (b64_char (sextet2 (Byte.to_N a) (Byte.to_N b)))
          (String (b64_char (sextet3 (Byte.to_N b) (Byte.to_N c)))
             (String (b64_char (sextet4 (Byte.to_N c))) rest))))
  = Some (a :: b :: c :: tl).
Proof.
  intros Hrest.
  pose proof (byte_lt_256 a) as Ha.
  pose proof (byte_lt_256 b) as Hb.
  pose proof (byte_lt_256 c) as Hc.
  cbn [base64_decode].
  rewrite !b64_index_char
    by auto using sextet1_lt, sextet2_lt, sextet3_lt, sextet4_lt.
  rewrite !b64_char_not_pad by auto using sextet3_lt, sextet4_lt.
  cbn [andb]. rewrite Hrest.
  unfold bytes_of, fold_right.
  rewrite octet1_sextets, octet2_sextets, octet3_sextets by assumption.
  rewrite !Byte.of_to_N. reflexivity.
Qed.

(** Decoding the text of a Buffer gives the Buffer back: two different
    byte sequences never have the same base64 text. *)
Theorem base64_roundtrip (bs : Buffer) :
  base64_decode (base64_encode bs) = Some bs.
Proof.
  induction bs as [|a|a b|a b c l IH] using list_ind3.
  - reflexivity.
  - pose proof (byte_lt_256 a) as Ha.
    cbn [base64_encode base64_decode].
    rewrite !b64_index_char by (auto using sextet1_lt; apply sextet2_lt; lia).
    cbn. replace (octet1 _ _) with (Byte.to_N a).
    + rewrite Byte.of_to_N. reflexivity.
    + symmetry. unfold octet1, sextet1, sextet2. n_arith.
  - pose proof (byte_lt_256 a) as Ha.
    pose proof (byte_lt_256 b) as Hb.
    cbn [base64_encode base64_decode].
    rewrite !b64_index_char
      by (auto using sextet1_lt, sextet2_lt; apply sextet3_lt; lia).
    rewrite b64_char_not_pad by (apply sextet3_lt; lia).
    cbn [andb is_pad]. cbn -[octet1 octet2 sextet1 sextet2 sextet3 Byte.of_N].
    rewrite octet1_sextets by assumption.
    replace (octet2 _ _) with (Byte.to_N b).
    + rewrite !Byte.of_to_N. reflexivity.
    + symmetry. unfold octet2, sextet2, sextet3. n_arith.
  - cbn [base64_encode]. apply decode_group, IH.
Qed.

(* ================================================================== *)
(** * How the programs answer *)
(* ================================================================== *)

Import Pg Express Deployment.

Arguments route_match : simpl never.
Arguments select_recent : simpl never.
Arguments insert_request : simpl never.
Arguments base64_encode : simpl never.
Arguments JSON_stringify : simpl never.
Arguments or_default : simpl never.
Arguments single : simpl never.

(** A path that matches one of the literal routes has one of two
    spellings once lower-cased, so it matches none of the others. *)
Lemma route_match_spellings (pattern path : string) :
  pattern <> "/" ->
  route_match pattern path = true ->
  lower path = lower pattern \/ lower path = lower pattern ++ "/".
Proof.
  intros Hp H. unfold route_match in H.
  destruct (pattern =? "/")%string eqn:E.
  - apply String.eqb_eq in E. contradiction.
  - apply orb_true_iff in H. destruct H as [H|H];
      apply String.eqb_eq in H; auto.
Qed.

Lemma api_is_not_root (path : string) :
  route_match "/api/a" path = true -> route_match "/" path = false.
Proof.
  intros H. apply route_match_spellings in H; [|discriminate].
  unfold route_match. destruct H as [H|H]; rewrite H; reflexivity.
Qed.

Lemma api_is_not_health (path : string) :
  route_match "/api/a" path = true -> route_match "/health" path = false.
Proof.
  intros H. apply route_match_spellings in H; [|discriminate].
  unfold route_match. destruct H as [H|H]; rewrite H; reflexivity.
Qed.

Lemma health_is_not_root (path : string) :
  route_match "/health" path = true -> route_match "/" path = false.
Proof.
  intros H. apply route_match_spellings in H; [|discriminate].
  unfold route_match. destruct H as [H|H]; rewrite H; reflexivity.
Qed.

(** The upload handler on a request the middleware accepts: one closed
    form for the ways it can go.  A statement that never settles leaves
    the handler suspended before anything is sent. *)
Lemma upload_outcome (penv : ProcessEnv) (i : Service) (e : Env)
    (req : Request) (p : Process) (t : Table) (f : option File) :
  is_upload req ->
  alive p = true ->
  single "image" (payload req) = inr f ->
  let image := option_map buffer f in
  let t' :=
    insert_request (now e) "backend-a"
      (JSON_stringify (mkMeta (truthy image))) image t in
  let failed err :=
    Responded
      (mkResponse 500 cors_headers
         (Json (Obj [("error", Str "Database not responding");
                     ("details", Str (message err))]))) in
  let logged err :=
    mkProcess (stdio p ++ [stderr_line "Database error:" err]) true in
  serve (program penv i) e req p t =
  match insert_fault e with
  | Some (Rejects err) => (failed err, (logged err, t))
  | Some NeverSettles => (NoReply, (mkProcess (stdio p) true, t))
  | None =>
      match select_fault e with
      | Some (Rejects err) => (failed err, (logged err, t'))
      | Some NeverSettles => (NoReply, (mkProcess (stdio p) true, t'))
      | None =>
          (Responded
             (mkResponse 200 cors_headers
                (Json
                   (Obj [("backend", Str "backend-a");
                         ("rows", Arr (map row_object (select_recent t')));
                         ("uploadedImage",
                          match image with
                          | Some b => Str (base64_encode b)
                          | None => Null
                          end)]))),
           (mkProcess (stdio p) true, t'))
      end
  end.
Proof.
  intros [Hm Hr] Ha Hf.
  destruct req as [m path ups f0]. cbn in Hm, Hr, Hf. subst m.
  pose proof (api_is_not_root _ Hr) as Hroot.
  pose proof (api_is_not_health _ Hr) as Hhealth.
  unfold serve. rewrite Ha.
  destruct i, f as [[b]|], e as [clock [[ie|]|] [[se|]|]];
    cbn; rewrite ?Hr, ?Hroot, ?Hhealth; cbn;
    unfold upload_single; cbn; rewrite Hf; reflexivity.
Qed.

(** An upload the middleware refuses never reaches the handler: the
    default error handler answers 500 and the table is not touched.  The
    page shows the error's stack, or only the status message when
    [NODE_ENV] is [production]; the stack is written to the console
    unless [NODE_ENV] is [test]. *)
Lemma refused_upload_outcome (penv : ProcessEnv) (i : Service) (e : Env)
    (req : Request) (p : Process) (t : Table) (err : Error) :
  is_upload req ->
  alive p = true ->
  single "image" (payload req) = inl err ->
  serve (program penv i) e req p t =
  (Responded
     (mkResponse 500 cors_headers
        (if (node_env penv =? "production")%string
         then ErrorPage "Internal Server Error"
         else StackPage err)),
   (mkProcess
      (stdio p ++
         (if (node_env penv =? "test")%string then []
          else [stderr_stack err]))%list
      true,
    t)).
Proof.
  intros [Hm Hr] Ha Hf.
  destruct req as [m path ups f0]. cbn in Hm, Hr, Hf. subst m.
  pose proof (api_is_not_root _ Hr) as Hroot.
  pose proof (api_is_not_health _ Hr) as Hhealth.
  unfold serve. rewrite Ha.
  destruct i; cbn; rewrite ?Hr, ?Hroot, ?Hhealth; cbn;
    unfold upload_single; cbn; rewrite Hf;
    unfold error_handler; cbn;
    destruct (node_env penv =? "test")%string,
             (node_env penv =? "production")%string;
    cbn; rewrite ?app_nil_r; reflexivity.
Qed.

Lemma process_eta (p : Process) :
  alive p = true -> mkProcess (stdio p) true = p.
Proof. destruct p as [io a]. cbn. intros ->. reflexivity. Qed.

(** Every OPTIONS request is answered by the CORS middleware. *)
Lemma options_outcome (penv : ProcessEnv) (i : Service) (e : Env)
    (req : Request) (p : Process) (t : Table) :
  method req = OPTIONS ->
  alive p = true ->
  serve (program penv i) e req p t =
  (Responded (mkResponse 200 cors_headers (Text "OK")), (p, t)).
Proof.
  intros Hm Ha. destruct req as [m path ups f]. cbn in Hm. subst m.
  unfold serve. rewrite Ha.
  destruct i; cbn; rewrite (process_eta p Ha); reflexivity.
Qed.

Lemma health_outcome (penv : ProcessEnv) (i : Service) (e : Env)
    (req : Request) (p : Process) (t : Table) :
  method req = GET ->
  route_match "/health" (path req) = true ->
  alive p = true ->
  serve (program penv i) e req p t =
  (Responded
     (mkResponse 200 cors_headers
        (Json (Obj [("status", Str "ok");
                    ("backend", Str "backend-a");
                    ("port", or_default (env_PORT penv) (Num 8080))]))),
   (p, t)).
Proof.
  intros Hm Hr Ha. destruct req as [m path ups f]. cbn in Hm, Hr. subst m.
  pose proof (health_is_not_root _ Hr) as Hroot.
  unfold serve. rewrite Ha.
  destruct i; cbn; rewrite ?Hroot, ?Hr; cbn;
    rewrite (process_eta p Ha); reflexivity.
Qed.

(** A request that is not an upload leaves the process and the table as
    they were. *)
Lemma other_requests_are_quiet (penv : ProcessEnv) (i : Service) (e : Env)
    (req : Request) (p : Process) (t : Table) :
  ~ is_upload req ->
  snd (serve (program penv i) e req p t) = (p, t).
Proof.
  intros Hn. unfold serve.
  destruct (alive p) eqn:Ha; [|reflexivity].
  destruct req as [m path ups f].
  destruct (route_match "/api/a" path) eqn:Hapi.
  - pose proof (api_is_not_root _ Hapi) as Hroot.
    pose proof (api_is_not_health _ Hapi) as Hhealth.
    destruct m, i; cbn; rewrite ?Hroot, ?Hhealth, ?Hapi; cbn;
      rewrite ?(process_eta p Ha); try reflexivity;
      exfalso; apply Hn; split; assumption || reflexivity.
  - destruct (route_match "/" path) eqn:Hroot,
             (route_match "/health" path) eqn:Hhealth;
      destruct m, i; cbn; rewrite ?Hroot, ?Hhealth, ?Hapi; cbn;
      rewrite ?(process_eta p Ha); reflexivity.
Qed.

(** A request is an upload or it is not, and the middleware accepts an
    upload or refuses it. *)
Lemma request_cases (req : Request) :
  (is_upload req /\ exists f, single "image" (payload req) = inr f)
  \/ (is_upload req /\ exists err, single "image" (payload req) = inl err)
  \/ ~ is_upload req.
Proof.
  destruct (method_eqb (method req) POST
            && route_match "/api/a" (path req)) eqn:Hu.
  - apply andb_true_iff in Hu. destruct Hu as [Hm Hr].
    assert (Hup : is_upload req).
    { split; [destruct (method req); discriminate || reflexivity | exact Hr]. }
    destruct (single "image" (payload req)) as [err|f] eqn:Hs.
    + right. left. split; [exact Hup | exists err; reflexivity].
    + left. split; [exact Hup | exists f; reflexivity].
  - right. right. intros [Hm Hr]. rewrite Hm, Hr in Hu. discriminate.
Qed.

(** Whatever the request, the process survives it. *)
Lemma serve_keeps_alive (penv : ProcessEnv) (i : Service) (e : Env)
    (req : Request) (p : Process) (t : Table) :
  alive (fst (snd (serve (program penv i) e req p t))) = alive p.
Proof.
  destruct (alive p) eqn:Ha.
  - destruct (request_cases req) as [[Hup [f Hf]]|[[Hup [err Hf]]|Hn]].
    + rewrite (upload_outcome penv i e req p t f Hup Ha Hf).
      destruct (insert_fault e) as [[ie|]|], (select_fault e) as [[se|]|];
        reflexivity.
    + rewrite (refused_upload_outcome penv i e req p t err Hup Ha Hf).
      reflexivity.
    + rewrite other_requests_are_quiet; [exact Ha | exact Hn].
  - unfold serve. rewrite Ha. exact Ha.
Qed.

(** What a request can do to the table: nothing, or the one insert of
    the upload handler, under the identity [backend-a] and stamped with
    the datastore's clock. *)
Lemma serve_table_effect (penv : ProcessEnv) (i : Service) (e : Env)
    (req : Request) (p : Process) (t : Table) :
  snd (snd (serve (program penv i) e req p t)) = t
  \/ exists f,
       snd (snd (serve (program penv i) e req p t))
         = insert_request (now e) "backend-a"
             (JSON_stringify (mkMeta (truthy (option_map buffer f))))
             (option_map buffer f) t.
Proof.
  destruct (alive p) eqn:Ha.
  2:{ left. unfold serve. rewrite Ha. reflexivity. }
  destruct (request_cases req) as [[Hup [f Hf]]|[[Hup [err Hf]]|Hn]].
  - rewrite (upload_outcome penv i e req p t f Hup Ha Hf).
    destruct (insert_fault e) as [[ie|]|], (select_fault e) as [[se|]|];
      cbn [snd];
      (left; reflexivity) || (right; exists f; reflexivity).
  - rewrite (refused_upload_outcome penv i e req p t err Hup Ha Hf).
    left. reflexivity.
  - rewrite other_requests_are_quiet by exact Hn. left. reflexivity.
Qed.

(** One call in the two-process system: both processes stay up, and the
    table is as it was or has the one new row. *)
Lemma step_effect (penv : ProcessEnv) (c : Call) (s : System) :
  alive (full s) = true ->
  alive (short s) = true ->
  alive (full (snd (step penv c s))) = true
  /\ alive (short (snd (step penv c s))) = true
  /\ (requests (snd (step penv c s)) = requests s
      \/ exists f,
           requests (snd (step penv c s))
             = insert_request (now (env c)) "backend-a"
                 (JSON_stringify (mkMeta (truthy (option_map buffer f))))
                 (option_map buffer f) (requests s)).
Proof.
  intros Hf Hs. unfold step. destruct (target c).
  - pose proof (serve_table_effect penv Full (env c) (request c) (full s)
                  (requests s)) as Ht.
    pose proof (serve_keeps_alive penv Full (env c) (request c) (full s)
                  (requests s)) as Hk.
    destruct (serve (program penv Full) (env c) (request c) (full s)
                (requests s)) as [r [p t]].
    cbn in *. rewrite Hk, Hf. repeat split; auto.
  - pose proof (serve_table_effect penv Short (env c) (request c) (short s)
                  (requests s)) as Ht.
    pose proof (serve_keeps_alive penv Short (env c) (request c) (short s)
                  (requests s)) as Hk.
    destruct (serve (program penv Short) (env c) (request c) (short s)
                (requests s)) as [r [p t]].
    cbn in *. rewrite Hk, Hs. repeat split; auto.
Qed.


(* ================================================================== *)
(** * The HTTP surface *)
(* ================================================================== *)

Import Samples.

(** C8, as stated, fails: the preflight reply to [OPTIONS /api/a] does
    not have an empty body.  [res.sendStatus(200)] sends the status
    text. *)
Lemma preflight_body_is_not_empty :
  ~ (exists r,
        fst (serve (program bare Full) (answering 1) (options_of "/api/a")
               (BackendA.start bare) Pg.empty) = Responded r
        /\ status r = 200 /\ body r = Text "").
Proof.
  intros [r [H [_ Hb]]]. cbn in H. inversion H; subst r.
  cbn in Hb. discriminate.
Qed.

(** C8 (amended): every OPTIONS request, on any path, in either program
    and whatever the datastore does, is answered with HTTP 200, the
    three permissive CORS headers (all origins; GET, POST, OPTIONS;
    Content-Type) and the text body [OK]; nothing else changes. *)
Theorem preflight (penv : ProcessEnv) (i : Service) (e : Env)
    (req : Request) (p : Process) (t : Table) :
  method req = OPTIONS ->
  alive p = true ->
  serve (program penv i) e req p t =
  (Responded
     (mkResponse 200
        [("Access-Control-Allow-Origin", "*");
         ("Access-Control-Allow-Methods", "GET, POST, OPTIONS");
         ("Access-Control-Allow-Headers", "Content-Type")]
        (Text "OK")),
   (p, t)).
Proof. intros Hm Ha. exact (options_outcome penv i e req p t Hm Ha). Qed.

(** C8 at work: a preflight for a path no route knows, sent while the
    datastore is down. *)
Lemma preflight_witness :
  method (options_of "/no/such/route") = OPTIONS
  /\ alive (BackendShort.start bare) = true
  /\ serve (program bare Short) down (options_of "/no/such/route")
       (BackendShort.start bare) Pg.empty =
     (Responded
        (mkResponse 200
           [("Access-Control-Allow-Origin", "*");
            ("Access-Control-Allow-Methods", "GET, POST, OPTIONS");
            ("Access-Control-Allow-Headers", "Content-Type")]
           (Text "OK")),
      (BackendShort.start bare, Pg.empty)).
Proof.
  split; [reflexivity|]. split; [reflexivity|].
  apply (preflight bare Short down (options_of "/no/such/route")
           (BackendShort.start bare) Pg.empty); reflexivity.
Defined.

(** C7, as stated, fails: with [PORT=3000] in the environment the
    [port] field of the health reply is the string ["3000"], not a
    number. *)
Lemma health_port_is_not_a_number :
  ~ (exists r v,
        fst (serve (program cluster Full) (answering 1) (get_of "/health")
               (BackendA.start cluster) Pg.empty) = Responded r
        /\ field "port" r = Some v /\ is_number v = true).
Proof.
  intros [r [v [H [Hf Hn]]]]. cbn in H. inversion H; subst r.
  cbn in Hf. inversion Hf; subst v. cbn in Hn. discriminate.
Qed.

(** C7 (amended): every GET /health, whatever the table holds, whatever
    the process logged before and whatever the datastore does, is
    answered with HTTP 200 and the body
    [{status: "ok", backend: "backend-a", port: PORT}], and changes
    nothing.  [PORT] is the number 8080 when the [PORT] environment
    variable is unset or empty, and otherwise that variable's text, a
    string. *)
Theorem health_check (penv : ProcessEnv) (i : Service) (e : Env)
    (req : Request) (p : Process) (t : Table) :
  method req = GET ->
  route_match "/health" (path req) = true ->
  alive p = true ->
  serve (program penv i) e req p t =
  (Responded
     (mkResponse 200 cors_headers
        (Json (Obj [("status", Str "ok");
                    ("backend", Str "backend-a");
                    ("port",
                     match env_PORT penv with
                     | None => Num 8080
                     | Some "" => Num 8080
                     | Some s => Str s
                     end)]))),
   (p, t)).
Proof.
  intros Hm Hr Ha. rewrite (health_outcome penv i e req p t Hm Hr Ha).
  unfold or_default. destruct (env_PORT penv) as [[|c s]|]; reflexivity.
Qed.

(** C7 at work: the health check of a process started with [PORT=3000],
    while the datastore is down. *)
Lemma health_check_witness :
  method (get_of "/health") = GET
  /\ route_match "/health" (path (get_of "/health")) = true
  /\ alive (BackendShort.start cluster) = true
  /\ serve (program cluster Short) down (get_of "/health")
       (BackendShort.start cluster) Pg.empty =
     (Responded
        (mkResponse 200 cors_headers
           (Json (Obj [("status", Str "ok");
                       ("backend", Str "backend-a");
                       ("port", Str "3000")]))),
      (BackendShort.start cluster, Pg.empty)).
Proof.
  split; [reflexivity|]. split; [reflexivity|]. split; [reflexivity|].
  apply (health_check cluster Short down (get_of "/health")
           (BackendShort.start cluster) Pg.empty); reflexivity.
Defined.

(* ================================================================== *)
(** * The upload route *)
(* ================================================================== *)

Lemma parse_stringify (b : bool) :
  JSON_parse_uploaded (JSON_stringify (mkMeta b)) = Some b.
Proof. destruct b; reflexivity. Qed.

(** What the upload middleware accepts: a body that is not multipart,
    and a form read to its end that has no file part, or exactly one,
    under the expected field. *)
Lemma single_accepts (name : string) (b : Payload) (x : option File) :
  single name b = inr x ->
  ((b = NotMultipart \/ b = Multipart [] None) /\ x = None)
  \/ (exists f, b = Multipart [(name, f)] None /\ x = Some f).
Proof.
  unfold single. destruct b as [|parts ending]; cbn.
  - intros H. inversion H. left. split; [left|]; reflexivity.
  - destruct parts as [|[fieldname f] rest]; cbn.
    + destruct ending; [discriminate|].
      intros H. inversion H. left. split; [right|]; reflexivity.
    + destruct (fieldname =? name)%string eqn:E; [|discriminate].
      apply String.eqb_eq in E. subst fieldname.
      destruct rest as [|[fieldname2 f2] rest]; cbn.
      * destruct ending; [discriminate|].
        intros H. inversion H. right. exists f. split; reflexivity.
      * destruct (fieldname2 =? name)%string; discriminate.
Qed.

(** A request with file parts to deliver is a form read to its end. *)
Lemma uploads_payload (req : Request) (parts : list (string * File)) :
  uploads req = parts -> parts <> [] -> payload req = Multipart parts None.
Proof.
  unfold uploads. destruct (payload req) as [|l [err|]]; intros H Hne;
    try (exfalso; apply Hne; symmetry; exact H).
  rewrite H. reflexivity.
Qed.

Lemma no_growth {A : Type} (l : list A) (x : A) : l <> (l ++ [x])%list.
Proof.
  intros H. apply (f_equal (@List.length A)) in H.
  rewrite length_app in H. cbn in H. lia.
Qed.

(** A POST to the upload route with a file under field [image]: what a
    success reply carries, what an inserted row holds, and that both
    exist when the file is the only one and the datastore answers. *)
Lemma image_upload (penv : ProcessEnv) (i : Service) (e : Env)
    (req : Request) (p : Process) (t : Table) (f : File) :
  is_upload req ->
  alive p = true ->
  In ("image", f) (uploads req) ->
  let out := serve (program penv i) e req p t in
  (forall r, fst out = Responded r -> status r = 200 ->
     field "uploadedImage" r = Some (Str (base64_encode (buffer f))))
  /\ (forall row,
        rows (snd (snd out)) = (rows t ++ [row])%list ->
        image row = Some (buffer f)
        /\ JSON_parse_uploaded (meta row) = Some true)
  /\ (uploads req = [("image", f)] -> first_fault e = None ->
      exists r row,
        fst out = Responded r /\ status r = 200
        /\ rows (snd (snd out)) = (rows t ++ [row])%list).
Proof.
  intros Hup Ha Hin out. subst out.
  destruct (single "image" (payload req)) as [err|x] eqn:Hs.
  - rewrite (refused_upload_outcome penv i e req p t err Hup Ha Hs). cbn.
    split; [|split].
    + intros r Hr Hst. inversion Hr; subst r. discriminate Hst.
    + intros row Hrow. exfalso. exact (no_growth _ _ Hrow).
    + intros Hu. apply uploads_payload in Hu; [|discriminate].
      rewrite Hu in Hs. unfold single in Hs. cbn in Hs. discriminate Hs.
  - destruct (single_accepts _ _ _ Hs) as [[Hnil _]|[f' [Hone Hx]]].
    { unfold uploads in Hin.
      destruct Hnil as [Hnil|Hnil]; rewrite Hnil in Hin; contradiction. }
    unfold uploads in Hin. rewrite Hone in Hin. destruct Hin as [Hin|[]].
    inversion Hin; subst f' x.
    rewrite (upload_outcome penv i e req p t (Some f) Hup Ha Hs).
    cbn [option_map]. unfold first_fault.
    destruct (insert_fault e) as [[ie|]|], (select_fault e) as [[se|]|];
      cbn [fst snd]; (split; [|split]);
      try (intros r Hr Hst; inversion Hr; subst r;
           (discriminate Hst || reflexivity));
      try (intros row Hrow; exfalso; exact (no_growth _ _ Hrow));
      try (intros row Hrow; unfold insert_request in Hrow; cbn in Hrow;
           apply app_inv_head in Hrow; inversion Hrow; subst row;
           split; reflexivity);
      try (intros _ Hf; discriminate Hf).
    intros _ _. eexists. eexists. split; [reflexivity|].
    split; reflexivity.
Qed.

(** C1: a POST to the upload route with a file of bytes [B] under field
    [image]: every success reply has [uploadedImage] equal to the base64
    text of [B], which decodes to exactly [B]; the row the request inserts
    has [meta.uploaded = true] and [image = B]; and when that file is the
    only one attached and the datastore answers, there is a success reply
    and an inserted row. *)
Theorem upload_round_trip (penv : ProcessEnv) (i : Service) (e : Env)
    (req : Request) (p : Process) (t : Table) (f : File) :
  is_upload req ->
  alive p = true ->
  In ("image", f) (uploads req) ->
  let out := serve (program penv i) e req p t in
  (forall r, fst out = Responded r -> status r = 200 ->
     field "uploadedImage" r = Some (Str (base64_encode (buffer f))))
  /\ base64_decode (base64_encode (buffer f)) = Some (buffer f)
  /\ (forall row,
        rows (snd (snd out)) = (rows t ++ [row])%list ->
        image row = Some (buffer f)
        /\ JSON_parse_uploaded (meta row) = Some true)
  /\ (uploads req = [("image", f)] -> first_fault e = None ->
      exists r row,
        fst out = Responded r /\ status r = 200
        /\ rows (snd (snd out)) = (rows t ++ [row])%list).
Proof.
  intros Hup Ha Hin out. subst out.
  destruct (image_upload penv i e req p t f Hup Ha Hin) as [H1 [H2 H3]].
  split; [exact H1|]. split; [apply base64_roundtrip|].
  split; [exact H2 | exact H3].
Qed.

(** C1 at work: ten bytes, the first eight of them a PNG signature. *)
Lemma upload_round_trip_witness :
  let out :=
    serve (program bare Full) (answering 7) (post_file ten_bytes)
      (BackendA.start bare) Pg.empty in
  is_upload (post_file ten_bytes)
  /\ In ("image", mkFile ten_bytes) (uploads (post_file ten_bytes))
  /\ (exists r, fst out = Responded r /\ status r = 200
                /\ field "uploadedImage" r = Some (Str "iVBORw0KGgoA/w=="))
  /\ (exists row, rows (snd (snd out)) = [row]
                  /\ image row = Some ten_bytes
                  /\ JSON_parse_uploaded (meta row) = Some true).
Proof.
  assert (Hup : is_upload (post_file ten_bytes)) by (split; reflexivity).
  assert (Hin : In ("image", mkFile ten_bytes) (uploads (post_file ten_bytes)))
    by (left; reflexivity).
  destruct (upload_round_trip bare Full (answering 7) (post_file ten_bytes)
              (BackendA.start bare) Pg.empty (mkFile ten_bytes)
              Hup eq_refl Hin) as [H1 [_ [H3 H4]]].
  destruct (H4 eq_refl eq_refl) as [r [row [Hr [Hs Hrows]]]].
  split; [exact Hup|]. split; [exact Hin|]. split.
  - exists r. split; [exact Hr|]. split; [exact Hs|].
    exact (H1 r Hr Hs).
  - exists row. split; [exact Hrows|]. exact (H3 row Hrows).
Defined.

(** C3, as stated, fails: a POST that has no file under field [image]
    can be an error.  One with a file under field [file] is refused by
    the upload middleware, and so is one whose form, without any file,
    ends before its closing boundary: neither reply is a 200 and no row
    is inserted, although the datastore answers. *)
Lemma misfiled_upload_is_an_error :
  ((forall f, ~ In ("image", f) (uploads post_misfiled))
   /\ ~ (exists r,
           fst (serve (program bare Full) (answering 7) post_misfiled
                  (BackendA.start bare) Pg.empty) = Responded r
           /\ status r = 200)
   /\ snd (snd (serve (program bare Full) (answering 7) post_misfiled
                  (BackendA.start bare) Pg.empty)) = Pg.empty)
  /\ ((forall f, ~ In ("image", f) (uploads post_unfinished))
      /\ ~ (exists r,
              fst (serve (program bare Full) (answering 7) post_unfinished
                     (BackendA.start bare) Pg.empty) = Responded r
              /\ status r = 200)
      /\ snd (snd (serve (program bare Full) (answering 7) post_unfinished
                     (BackendA.start bare) Pg.empty)) = Pg.empty).
Proof.
  split; (split; [|split]).
  - intros f [H|[]]. discriminate H.
  - intros [r [H Hs]]. cbn in H. inversion H; subst r.
    cbn in Hs. discriminate.
  - reflexivity.
  - intros f [].
  - intros [r [H Hs]]. cbn in H. inversion H; subst r.
    cbn in Hs. discriminate.
  - reflexivity.
Qed.

(** C3 (amended): a POST to the upload route whose body is not a
    multipart form, or is a multipart form read to its end that carries
    no file part at all, is not an error.  When the datastore answers,
    the reply is HTTP 200 with [uploadedImage: null]; a failure of the
    datastore is the only failure such a request can meet: a reply other
    than 200 means a statement was rejected, and no reply means a
    statement never settled; and the row it inserts has
    [meta.uploaded = false] and a NULL [image]. *)
Theorem upload_without_file (penv : ProcessEnv) (i : Service) (e : Env)
    (req : Request) (p : Process) (t : Table) :
  is_upload req ->
  alive p = true ->
  payload req = NotMultipart \/ payload req = Multipart [] None ->
  let out := serve (program penv i) e req p t in
  (first_fault e = None ->
     exists r, fst out = Responded r /\ status r = 200
               /\ field "uploadedImage" r = Some Null)
  /\ (forall r, fst out = Responded r -> status r <> 200 ->
        exists err, first_fault e = Some (Rejects err))
  /\ ((exists r, fst out = Responded r)
      \/ (fst out = NoReply /\ first_fault e = Some NeverSettles))
  /\ (insert_fault e = None ->
      exists row,
        rows (snd (snd out)) = (rows t ++ [row])%list
        /\ image row = None
        /\ JSON_parse_uploaded (meta row) = Some false).
Proof.
  intros Hup Ha Hf out. subst out.
  assert (Hs : single "image" (payload req) = inr None)
    by (destruct Hf as [Hf|Hf]; rewrite Hf; reflexivity).
  rewrite (upload_outcome penv i e req p t None Hup Ha Hs).
  cbn [option_map]. unfold first_fault.
  destruct (insert_fault e) as [[ie|]|], (select_fault e) as [[se|]|]; cbn;
    (split; [intros H; (discriminate H ||
               (eexists; split; [reflexivity|]; split; reflexivity)) |]);
    (split; [intros r Hr Hs'; inversion Hr; subst r;
             ((eexists; reflexivity) || (exfalso; apply Hs'; reflexivity)) |]);
    (split; [(left; eexists; reflexivity)
             || (right; split; reflexivity) |]);
    intros H; try discriminate H;
    eexists; (split; [reflexivity|]); split; reflexivity.
Qed.

(** C3 at work: an upload with an empty form, sent to the short
    program. *)
Lemma upload_without_file_witness :
  let out :=
    serve (program bare Short) (answering 7) post_nothing
      (BackendShort.start bare) Pg.empty in
  is_upload post_nothing
  /\ (exists r, fst out = Responded r /\ status r = 200
                /\ field "uploadedImage" r = Some Null)
  /\ (exists row, rows (snd (snd out)) = [row] /\ image row = None
                  /\ JSON_parse_uploaded (meta row) = Some false).
Proof.
  assert (Hup : is_upload post_nothing) by (split; reflexivity).
  destruct (upload_without_file bare Short (answering 7) post_nothing
              (BackendShort.start bare) Pg.empty Hup eq_refl
              (or_intror eq_refl))
    as [H1 [_ [_ H4]]].
  split; [exact Hup|]. split; [exact (H1 eq_refl) | exact (H4 eq_refl)].
Defined.

(** C10: a zero-byte file under field [image] counts as an image: the
    success reply's [uploadedImage] is the empty string, not null, and
    the row inserted has [meta.uploaded = true] and a non-NULL, empty
    [image].  Presence of the file decides, not its length. *)
Theorem zero_byte_file (penv : ProcessEnv) (i : Service) (e : Env)
    (req : Request) (p : Process) (t : Table) :
  is_upload req ->
  alive p = true ->
  In ("image", mkFile []) (uploads req) ->
  let out := serve (program penv i) e req p t in
  (forall r, fst out = Responded r -> status r = 200 ->
     field "uploadedImage" r = Some (Str "")
     /\ field "uploadedImage" r <> Some Null)
  /\ (forall row,
        rows (snd (snd out)) = (rows t ++ [row])%list ->
        image row = Some [] /\ image row <> None
        /\ JSON_parse_uploaded (meta row) = Some true)
  /\ (uploads req = [("image", mkFile [])] -> first_fault e = None ->
      exists r row,
        fst out = Responded r /\ status r = 200
        /\ rows (snd (snd out)) = (rows t ++ [row])%list).
Proof.
  intros Hup Ha Hin out. subst out.
  destruct (image_upload penv i e req p t (mkFile []) Hup Ha Hin)
    as [H1 [H2 H3]].
  split; [|split; [|exact H3]].
  - intros r Hr Hs. rewrite (H1 r Hr Hs). split; [reflexivity | discriminate].
  - intros row Hrow. destruct (H2 row Hrow) as [Hi Hm].
    rewrite Hi. repeat split; [discriminate | exact Hm].
Qed.

(** C10 at work. *)
Lemma zero_byte_file_witness :
  let out :=
    serve (program bare Full) (answering 3) (post_file [])
      (BackendA.start bare) Pg.empty in
  is_upload (post_file [])
  /\ In ("image", mkFile []) (uploads (post_file []))
  /\ (exists r, fst out = Responded r /\ status r = 200
                /\ field "uploadedImage" r = Some (Str ""))
  /\ (exists row, rows (snd (snd out)) = [row] /\ image row = Some []
                  /\ JSON_parse_uploaded (meta row) = Some true).
Proof.
  assert (Hup : is_upload (post_file [])) by (split; reflexivity).
  assert (Hin : In ("image", mkFile []) (uploads (post_file [])))
    by (left; reflexivity).
  destruct (zero_byte_file bare Full (answering 3) (post_file [])
              (BackendA.start bare) Pg.empty Hup eq_refl Hin)
    as [H1 [H2 H3]].
  destruct (H3 eq_refl eq_refl) as [r [row [Hr [Hs Hrows]]]].
  split; [exact Hup|]. split; [exact Hin|]. split.
  - exists r. split; [exact Hr|]. split; [exact Hs|].
    exact (proj1 (H1 r Hr Hs)).
  - exists row. split; [exact Hrows|].
    destruct (H2 row Hrows) as [Hi [_ Hm]]. split; assumption.
Defined.

(** C4: when the insert or the read-back of a POST fails (the driver
    rejects the statement with an error), whatever the cause, the reply
    is HTTP 500 with body
    [{error: "Database not responding", details: <message of the failure>}];
    the failure is written to the error console; the process stays up
    and answers a following GET /health with 200; and nothing is rolled
    back: after a failed read-back the inserted row is in the table,
    after a failed insert the table is as before. *)
Theorem datastore_failure (penv : ProcessEnv) (i : Service) (e : Env)
    (req : Request) (p : Process) (t : Table) (f : option File)
    (err : Error) :
  is_upload req ->
  alive p = true ->
  single "image" (payload req) = inr f ->
  first_fault e = Some (Rejects err) ->
  let out := serve (program penv i) e req p t in
  let p' := fst (snd out) in
  let t' := snd (snd out) in
  let image := option_map buffer f in
  fst out =
    Responded
      (mkResponse 500 cors_headers
         (Json (Obj [("error", Str "Database not responding");
                     ("details", Str (message err))])))
  /\ stdio p' = (stdio p ++ [stderr_line "Database error:" err])%list
  /\ alive p' = true
  /\ (forall e2,
        exists r,
          fst (serve (program penv i) e2 (get_of "/health") p' t')
            = Responded r
          /\ status r = 200)
  /\ (insert_fault e = None ->
      rows t' =
        (rows t ++
           [inserted_row (now e) "backend-a"
              (JSON_stringify (mkMeta (truthy image))) image t])%list)
  /\ (insert_fault e <> None -> t' = t).
Proof.
  intros Hup Ha Hs Hfault out p' t' image. subst out p' t' image.
  rewrite (upload_outcome penv i e req p t f Hup Ha Hs).
  unfold first_fault in Hfault.
  destruct (insert_fault e) as [ie|] eqn:Hi.
  - inversion Hfault; subst ie. cbn [fst snd stdio alive].
    repeat split; try reflexivity; try discriminate.
    intros e2. eexists. rewrite health_outcome by reflexivity.
    split; reflexivity.
  - rewrite Hfault. cbn [fst snd stdio alive].
    repeat split; try reflexivity.
    + intros e2. eexists. rewrite health_outcome by reflexivity.
      split; reflexivity.
    + intros H. exfalso. apply H. reflexivity.
Qed.

(** C4 at work: the datastore takes the insert and then refuses the
    select. *)
Lemma datastore_failure_witness :
  let out :=
    serve (program bare Full) lost_after_insert (post_file ten_bytes)
      (BackendA.start bare) Pg.empty in
  first_fault lost_after_insert = Some (Rejects refused)
  /\ fst out =
       Responded
         (mkResponse 500 cors_headers
            (Json (Obj [("error", Str "Database not responding");
                        ("details",
                         Str "connect ECONNREFUSED 10.0.0.4:5432")])))
  /\ alive (fst (snd out)) = true
  /\ List.length (rows (snd (snd out))) = 1%nat.
Proof.
  assert (Hup : is_upload (post_file ten_bytes)) by (split; reflexivity).
  destruct (datastore_failure bare Full lost_after_insert
              (post_file ten_bytes) (BackendA.start bare) Pg.empty
              (Some (mkFile ten_bytes)) refused Hup eq_refl eq_refl eq_refl)
    as [H1 [_ [H3 [_ [H5 _]]]]].
  split; [reflexivity|]. split; [exact H1|]. split; [exact H3|].
  rewrite (H5 eq_refl). reflexivity.
Defined.

(** C9: the table only grows.  Whatever the request, the rows present
    before it are still there afterwards, unchanged and in place, with at
    most one row appended; and a POST answered with 200 has appended
    exactly one. *)
Theorem append_only (penv : ProcessEnv) (i : Service) (e : Env)
    (req : Request) (p : Process) (t : Table) :
  let out := serve (program penv i) e req p t in
  let t' := snd (snd out) in
  (exists added,
      rows t' = (rows t ++ added)%list /\ (List.length added <= 1)%nat)
  /\ (forall r,
        method req = POST -> fst out = Responded r -> status r = 200 ->
        exists row, rows t' = (rows t ++ [row])%list).
Proof.
  intros out t'. subst out t'.
  destruct (alive p) eqn:Ha.
  2:{ unfold serve. rewrite Ha. cbn. split.
      - exists []. rewrite app_nil_r. split; [reflexivity | auto].
      - intros r _ H. discriminate H. }
  destruct (request_cases req) as [[Hup [f Hf]]|[[Hup [err Hf]]|Hn]].
  - rewrite (upload_outcome penv i e req p t f Hup Ha Hf).
    destruct (insert_fault e) as [[ie|]|], (select_fault e) as [[se|]|];
      cbn; split;
      try (exists []; rewrite app_nil_r; split; [reflexivity | auto]; fail);
      try (eexists; split; [reflexivity | cbn; auto]; fail);
      intros r _ H Hs; inversion H; subst r; try discriminate Hs.
    eexists. reflexivity.
  - rewrite (refused_upload_outcome penv i e req p t err Hup Ha Hf).
    cbn. split.
    + exists []. rewrite app_nil_r. split; [reflexivity | auto].
    + intros r _ H Hs. inversion H; subst r. discriminate Hs.
  - pose proof (other_requests_are_quiet penv i e req p t Hn) as Hq.
    rewrite Hq. cbn. split.
    + exists []. rewrite app_nil_r. split; [reflexivity | auto].
    + intros r Hm H Hs. exfalso.
      destruct req as [m path ups f]. cbn in Hm. subst m.
      assert (Hr : route_match "/api/a" path = false).
      { destruct (route_match "/api/a" path) eqn:E; [|reflexivity].
        exfalso. apply Hn. split; [reflexivity | exact E]. }
      unfold serve in H. rewrite Ha in H.
      destruct (route_match "/" path) eqn:Hroot,
               (route_match "/health" path) eqn:Hhealth;
        destruct i; cbn in H; rewrite ?Hroot, ?Hhealth, ?Hr in H; cbn in H;
        inversion H; subst r; discriminate Hs.
Qed.

(* ================================================================== *)
(** * Rows written by the services *)
(* ================================================================== *)

(** What one request adds to the table, and that each added row carries
    a flag that agrees with its image. *)
Lemma serve_adds_consistent_rows (penv : ProcessEnv) (i : Service)
    (e : Env) (req : Request) (p : Process) (t : Table) :
  exists added,
    rows (snd (snd (serve (program penv i) e req p t)))
      = (rows t ++ added)%list
    /\ Forall flag_matches_image added.
Proof.
  destruct (alive p) eqn:Ha.
  2:{ unfold serve. rewrite Ha. exists []. cbn. rewrite app_nil_r. auto. }
  destruct (request_cases req) as [[Hup [f Hf]]|[[Hup [err Hf]]|Hn]].
  - rewrite (upload_outcome penv i e req p t f Hup Ha Hf).
    destruct (insert_fault e) as [[ie|]|], (select_fault e) as [[se|]|]; cbn;
      try (exists []; rewrite app_nil_r; split; [reflexivity | constructor]; fail);
      (eexists; split; [reflexivity|]; constructor; [|constructor];
       unfold flag_matches_image; cbn; rewrite parse_stringify;
       destruct f; reflexivity).
  - rewrite (refused_upload_outcome penv i e req p t err Hup Ha Hf).
    exists []. cbn. rewrite app_nil_r. auto.
  - rewrite other_requests_are_quiet by exact Hn.
    exists []. cbn. rewrite app_nil_r. auto.
Qed.

Lemma step_adds_consistent_rows (penv : ProcessEnv) (c : Call) (s : System) :
  exists added,
    rows (requests (snd (step penv c s))) = (rows (requests s) ++ added)%list
    /\ Forall flag_matches_image added.
Proof.
  unfold step. destruct (target c).
  - pose proof (serve_adds_consistent_rows penv Full (env c) (request c)
                  (full s) (requests s)) as H.
    destruct (serve (program penv Full) (env c) (request c) (full s)
                (requests s)) as [r [p t]]. exact H.
  - pose proof (serve_adds_consistent_rows penv Short (env c) (request c)
                  (short s) (requests s)) as H.
    destruct (serve (program penv Short) (env c) (request c) (short s)
                (requests s)) as [r [p t]]. exact H.
Qed.

Lemma run_cons (penv : ProcessEnv) (c : Call) (calls : list Call)
    (s : System) :
  run penv (c :: calls) s =
  (fst (step penv c s) :: fst (run penv calls (snd (step penv c s))),
   snd (run penv calls (snd (step penv c s)))).
Proof.
  cbn [run]. destruct (step penv c s) as [r s1]. cbn [fst snd].
  destruct (run penv calls s1) as [rs s2]. reflexivity.
Qed.

(** C5: in every row the services write, over any sequence of requests
    to either program and whatever the datastore does, [meta.uploaded] is
    true if and only if [image] is not NULL. *)
Theorem uploaded_flag_iff_image (penv : ProcessEnv) (calls : list Call)
    (s : System) :
  exists written,
    rows (requests (snd (run penv calls s)))
      = (rows (requests s) ++ written)%list
    /\ Forall
         (fun r =>
            exists flag,
              JSON_parse_uploaded (meta r) = Some flag
              /\ (flag = true <-> image r <> None))
         written.
Proof.
  revert s. induction calls as [|c calls IH]; intros s.
  - exists []. cbn. rewrite app_nil_r. auto.
  - rewrite run_cons. cbn [snd].
    destruct (step_adds_consistent_rows penv c s) as [a1 [H1 F1]].
    destruct (IH (snd (step penv c s))) as [a2 [H2 F2]].
    exists (a1 ++ a2)%list. split.
    + rewrite H2, H1, app_assoc. reflexivity.
    + apply Forall_app. split; [|exact F2].
      eapply Forall_impl; [|exact F1].
      intros r Hr. unfold flag_matches_image in Hr.
      exists (truthy (image r)). split; [exact Hr|].
      destruct (image r); cbn; split; congruence.
Qed.

(* ================================================================== *)
(** * The two programs compared *)
(* ================================================================== *)

(** C6, as stated, fails: the two programs do not have the same routes.
    [GET /] is answered with 200 by [backend-a/index.js] and with 404 by
    the other program, and no renaming of identity or prefix changes a
    status code. *)
Lemma programs_differ_on_root :
  ~ (exists r1 r2,
        fst (serve (program bare Full) (answering 1)
               (get_of "/") (BackendA.start bare) Pg.empty)
          = Responded r1
        /\ fst (serve (program bare Short) (answering 1)
                  (get_of "/") (BackendShort.start bare) Pg.empty)
             = Responded r2
        /\ status r1 = status r2).
Proof.
  intros [r1 [r2 [H1 [H2 Hs]]]]. cbn in H1, H2.
  inversion H1; subst r1. inversion H2; subst r2.
  cbn in Hs. discriminate.
Qed.

(** Neither program has a route under [/api/b]: an upload sent there
    gets the 404 of the final handler from both, and inserts nothing. *)
Lemma api_b_is_unknown (penv : ProcessEnv) (i : Service) (e : Env)
    (b : Payload) (p : Process) (t : Table) :
  alive p = true ->
  serve (program penv i) e (mkRequest POST "/api/b" b None) p t =
  (Responded (mkResponse 404 cors_headers (ErrorPage "Cannot POST /api/b")),
   (p, t)).
Proof.
  intros Ha. unfold serve. rewrite Ha.
  assert (H1 : route_match "/" "/api/b" = false) by reflexivity.
  assert (H2 : route_match "/health" "/api/b" = false) by reflexivity.
  assert (H3 : route_match "/api/a" "/api/b" = false) by reflexivity.
  destruct i; cbn; rewrite ?H1, ?H2, ?H3; cbn;
    rewrite (process_eta p Ha); reflexivity.
Qed.

(** The two sources are the instances under the identity [backend-a]
    and the prefix [/api/a]. *)
Lemma sources_are_instances (penv : ProcessEnv) :
  program penv Full = Instance.full "backend-a" "/api/a" penv
  /\ program penv Short = Instance.short "backend-a" "/api/a" penv.
Proof. split; reflexivity. Qed.

(** Under any identity and prefix, a request that is not for one of the
    informational routes meets the same layers in both programs. *)
Lemma instances_agree (BACKEND prefix : string) (penv : ProcessEnv)
    (e : Env) (req : Request) (p : Process) (t : Table) :
  informational prefix req = false ->
  serve (Instance.short BACKEND prefix penv) e req p t
    = serve (Instance.full BACKEND prefix penv) e req p t.
Proof.
  destruct req as [m path b f]. unfold informational.
  cbn [method Express.path]. intros Hinfo. unfold serve.
  destruct (alive p); [|reflexivity].
  destruct m; cbn in Hinfo |- *; try reflexivity;
    apply orb_false_iff in Hinfo; destruct Hinfo as [Hroot Hapi];
    rewrite Hroot, Hapi;
    destruct (route_match "/health" path); reflexivity.
Qed.

(** A GET or HEAD for one of the informational routes is answered 200
    by the full program and 404 by the short one. *)
Lemma instances_differ (BACKEND prefix : string) (penv : ProcessEnv)
    (e : Env) (req : Request) (p : Process) (t : Table) :
  informational prefix req = true ->
  route_match "/health" (path req) = false ->
  alive p = true ->
  exists b1 b2,
    serve (Instance.full BACKEND prefix penv) e req p t
      = (Responded (mkResponse 200 cors_headers b1), (p, t))
    /\ serve (Instance.short BACKEND prefix penv) e req p t
         = (Responded (mkResponse 404 cors_headers b2), (p, t))
    /\ (method req = GET ->
        (exists v, b1 = Json v)
        /\ b2 = ErrorPage ("Cannot GET " ++ path req))
    /\ (method req = HEAD -> b1 = NoBody /\ b2 = NoBody).
Proof.
  destruct req as [m path b f]. unfold informational.
  cbn [method Express.path]. intros Hinfo Hh Ha. unfold serve. rewrite Ha.
  destruct m; cbn in Hinfo; try discriminate Hinfo;
    destruct (route_match "/" path) eqn:Hroot;
    cbn in Hinfo; cbn; rewrite ?Hroot, ?Hh, ?Hinfo; cbn;
    rewrite (process_eta p Ha);
    eexists; eexists; (split; [reflexivity|]); (split; [reflexivity|]);
    (split; [intros Hm | intros Hm]); try discriminate Hm;
    split; try reflexivity; eexists; reflexivity.
Qed.

(** C6 (amended): the two programs run identical logic up to the
    identity constant and the route prefix, except for the informational
    routes.  The sources are the instances under [backend-a] and
    [/api/a]; whatever identity and prefix are substituted in both, the
    two programs give the same reply and have the same effects on the
    console and on the table for every request other than a GET or HEAD
    of [/] or of the prefix path; and those requests are answered 200 by
    [backend-a/index.js] only: the other program does not register the
    two routes and leaves them to the final handler, which replies 404.
    (A prefix that collides with [/health] is set aside there; [/api/a]
    does not.) *)
Theorem programs_agree (BACKEND prefix : string) (penv : ProcessEnv)
    (e : Env) (req : Request) (p : Process) (t : Table) :
  let full := Instance.full BACKEND prefix penv in
  let short := Instance.short BACKEND prefix penv in
  (program penv Full = Instance.full "backend-a" "/api/a" penv
   /\ program penv Short = Instance.short "backend-a" "/api/a" penv)
  /\ (informational prefix req = false ->
      serve short e req p t = serve full e req p t)
  /\ (informational prefix req = true ->
      route_match "/health" (path req) = false ->
      alive p = true ->
      exists b1 b2,
        serve full e req p t
          = (Responded (mkResponse 200 cors_headers b1), (p, t))
        /\ serve short e req p t
             = (Responded (mkResponse 404 cors_headers b2), (p, t))
        /\ (method req = GET ->
            (exists v, b1 = Json v)
            /\ b2 = ErrorPage ("Cannot GET " ++ path req))
        /\ (method req = HEAD -> b1 = NoBody /\ b2 = NoBody))
  /\ (informational "/api/a" req = true ->
      route_match "/health" (path req) = false).
Proof.
  intros full short. subst full short.
  split; [exact (sources_are_instances penv)|]. split; [|split].
  - exact (instances_agree BACKEND prefix penv e req p t).
  - exact (instances_differ BACKEND prefix penv e req p t).
  - unfold informational. intros H. apply andb_true_iff in H.
    destruct H as [_ H]. apply orb_true_iff in H. destruct H as [H|H].
    + destruct (route_match "/health" (path req)) eqn:E; [|reflexivity].
      rewrite (health_is_not_root _ E) in H. discriminate H.
    + exact (api_is_not_health _ H).
Qed.

(** C6 at work: the instance [backend-b] under [/api/b].  An upload is
    answered alike by both programs, under the substituted identity;
    [HEAD /api/b] is not. *)
Lemma programs_agree_witness :
  informational "/api/b" (mkRequest POST "/api/b" (Multipart [] None) None)
    = false
  /\ serve (Instance.short "backend-b" "/api/b" bare) (answering 9)
       (mkRequest POST "/api/b" (Multipart [] None) None)
       (BackendShort.start bare) Pg.empty
     = serve (Instance.full "backend-b" "/api/b" bare) (answering 9)
         (mkRequest POST "/api/b" (Multipart [] None) None)
         (BackendShort.start bare) Pg.empty
  /\ option_map (field "backend")
       (match
          fst (serve (Instance.short "backend-b" "/api/b" bare) (answering 9)
                 (mkRequest POST "/api/b" (Multipart [] None) None)
                 (BackendShort.start bare) Pg.empty)
        with
        | Responded r => Some r
        | _ => None
        end)
     = Some (Some (Str "backend-b"))
  /\ informational "/api/b" (mkRequest HEAD "/api/b" NotMultipart None)
     = true.
Proof.
  split; [reflexivity|]. split; [|split; reflexivity].
  apply (proj1 (proj2 (programs_agree "backend-b" "/api/b" bare (answering 9)
                         (mkRequest POST "/api/b" (Multipart [] None) None)
                         (BackendShort.start bare) Pg.empty))).
  reflexivity.
Defined.


(* ================================================================== *)
(** * [ORDER BY ts DESC LIMIT 5] *)
(* ================================================================== *)

Lemma insert_by_ts_perm (r : Row) (l : list Row) :
  Permutation (r :: l) (insert_by_ts r l).
Proof.
  induction l as [|x l IH]; cbn.
  - apply Permutation_refl.
  - destruct (ts x <? ts r).
    + apply Permutation_refl.
    + eapply perm_trans; [apply perm_swap|]. apply perm_skip, IH.
Qed.

Lemma insert_by_ts_sorted (r : Row) (l : list Row) :
  StronglySorted ts_ge l -> StronglySorted ts_ge (insert_by_ts r l).
Proof.
  induction 1 as [|x l Hs IH Hx]; cbn.
  - constructor; constructor.
  - destruct (ts x <? ts r) eqn:E.
    + apply Z.ltb_lt in E. constructor.
      * constructor; assumption.
      * constructor; [unfold ts_ge; lia|].
        eapply Forall_impl; [|exact Hx]. unfold ts_ge. intros a Ha. lia.
    + apply Z.ltb_ge in E. constructor; [exact IH|].
      eapply Permutation_Forall; [apply insert_by_ts_perm|].
      constructor; [unfold ts_ge; lia | exact Hx].
Qed.

Lemma fold_insert_perm (l acc : list Row) :
  Permutation (acc ++ l)
    (fold_left (fun a r => insert_by_ts r a) l acc).
Proof.
  revert acc. induction l as [|x l IH]; intros acc; cbn.
  - rewrite app_nil_r. apply Permutation_refl.
  - eapply perm_trans; [|apply IH].
    eapply perm_trans; [apply Permutation_sym, Permutation_middle|].
    exact (Permutation_app_tail l (insert_by_ts_perm x acc)).
Qed.

Lemma fold_insert_sorted (l acc : list Row) :
  StronglySorted ts_ge acc ->
  StronglySorted ts_ge (fold_left (fun a r => insert_by_ts r a) l acc).
Proof.
  revert acc. induction l as [|x l IH]; intros acc Hacc; cbn.
  - exact Hacc.
  - apply IH, insert_by_ts_sorted, Hacc.
Qed.

(** The sort is one of the orders SQL allows, whatever the table. *)
Lemma order_by_ts_desc_admissible (l : list Row) :
  admissible_order l (order_by_ts_desc l).
Proof.
  split.
  - apply (fold_insert_perm l []).
  - apply fold_insert_sorted. constructor.
Qed.

(** ** Independence from how SQL breaks ties

    On a chronological table no two rows share a timestamp, so SQL's
    [ORDER BY ts DESC] has one possible result: the table read
    backwards. *)

Lemma sorted_snoc {A : Type} (R : A -> A -> Prop) (l : list A) (x : A) :
  StronglySorted R l ->
  Forall (fun y => R y x) l ->
  StronglySorted R (l ++ [x]).
Proof.
  induction 1 as [|y l Hs IH Hy]; intros Hx; cbn.
  - constructor; constructor.
  - inversion Hx; subst. constructor.
    + apply IH. assumption.
    + apply Forall_app. split; [exact Hy|].
      constructor; [assumption | constructor].
Qed.

Lemma sorted_rev {A : Type} (R : A -> A -> Prop) (l : list A) :
  StronglySorted R l -> StronglySorted (fun a b => R b a) (rev l).
Proof.
  induction 1 as [|x l Hs IH Hx]; cbn.
  - constructor.
  - apply sorted_snoc; [exact IH|].
    rewrite Forall_forall in *. intros y Hy.
    apply Hx, in_rev, Hy.
Qed.

Lemma chronological_distinct (l : list Row) :
  chronological l -> NoDup (map ts l).
Proof.
  induction 1 as [|x l Hs IH Hx]; cbn; constructor; [|exact IH].
  intros Hin. apply in_map_iff in Hin. destruct Hin as [y [Hy Hin]].
  rewrite Forall_forall in Hx. specialize (Hx y Hin).
  unfold ts_lt in Hx. lia.
Qed.

Lemma descending_distinct_strict (l : list Row) :
  StronglySorted ts_ge l ->
  NoDup (map ts l) ->
  StronglySorted (fun a b => ts_lt b a) l.
Proof.
  induction 1 as [|x l Hs IH Hx]; cbn; intros Hnd.
  - constructor.
  - inversion Hnd as [|? ? Hnotin Hnd']; subst. constructor.
    + apply IH, Hnd'.
    + rewrite Forall_forall in *. intros y Hy.
      specialize (Hx y Hy). unfold ts_ge in Hx. unfold ts_lt.
      assert (ts y <> ts x).
      { intros E. apply Hnotin. rewrite <- E. apply in_map, Hy. }
      lia.
Qed.

Lemma strict_order_unique (l1 l2 : list Row) :
  StronglySorted (fun a b => ts_lt b a) l1 ->
  StronglySorted (fun a b => ts_lt b a) l2 ->
  Permutation l1 l2 ->
  l1 = l2.
Proof.
  intros H1. revert l2.
  induction H1 as [|a l1 Hs1 IH Ha]; intros l2 H2 Hp.
  - apply Permutation_nil in Hp. symmetry. exact Hp.
  - destruct H2 as [|b l2 Hs2 Hb].
    + apply Permutation_sym, Permutation_nil in Hp. discriminate.
    + assert (E : a = b).
      { assert (Hina : In a (b :: l2)).
        { eapply Permutation_in; [exact Hp | left; reflexivity]. }
        assert (Hinb : In b (a :: l1)).
        { eapply Permutation_in;
            [apply Permutation_sym; exact Hp | left; reflexivity]. }
        destruct Hina as [E|Hina]; [symmetry; exact E|].
        destruct Hinb as [E|Hinb]; [exact E|].
        rewrite Forall_forall in Ha, Hb.
        specialize (Ha b Hinb). specialize (Hb a Hina).
        unfold ts_lt in Ha, Hb. lia. }
      subst b. f_equal. apply IH; [exact Hs2|].
      eapply Permutation_cons_inv. exact Hp.
Qed.

Lemma admissible_order_chronological (l result : list Row) :
  chronological l -> admissible_order l result -> result = rev l.
Proof.
  intros Hc [Hp Hs].
  apply strict_order_unique.
  - apply descending_distinct_strict; [exact Hs|].
    eapply Permutation_NoDup; [|apply chronological_distinct, Hc].
    apply Permutation_map, Hp.
  - apply (sorted_rev ts_lt), Hc.
  - eapply perm_trans; [apply Permutation_sym, Hp | apply Permutation_rev].
Qed.

(** So the sort of the model, one admissible order among others, is that
    result too. *)
Lemma order_by_ts_desc_chronological (l : list Row) :
  chronological l -> order_by_ts_desc l = rev l.
Proof.
  intros Hc.
  apply (admissible_order_chronological l _ Hc),
    order_by_ts_desc_admissible.
Qed.

Lemma chronological_snoc (l : list Row) (r : Row) :
  chronological l ->
  Forall (fun x => ts x < ts r) l ->
  chronological (l ++ [r]).
Proof. exact (sorted_snoc ts_lt l r). Qed.

Lemma select_recent_chronological (t : Table) :
  chronological (rows t) -> select_recent t = newest_first t.
Proof.
  intros H. unfold select_recent, newest_first.
  rewrite order_by_ts_desc_chronological by exact H. reflexivity.
Qed.

Lemma firstn_sorted {A : Type} (R : A -> A -> Prop) (n : nat) (l : list A) :
  StronglySorted R l -> StronglySorted R (firstn n l).
Proof.
  intros H. revert n. induction H as [|x l Hs IH Hx]; intros [|n]; cbn;
    try constructor.
  - apply IH.
  - rewrite Forall_forall in *. intros y Hy. apply Hx.
    eapply (In_nth _ _ x) in Hy. destruct Hy as [k [Hk Hy]].
    rewrite <- Hy, nth_firstn.
    destruct (k <? n)%nat eqn:E.
    + apply nth_In. rewrite length_firstn in Hk. lia.
    + rewrite length_firstn in Hk. apply Nat.ltb_ge in E. lia.
Qed.

(** The result of the select is ordered by [ts], largest first, on every
    table. *)
Lemma select_recent_descending (t : Table) : descending (select_recent t).
Proof.
  unfold descending, select_recent.
  pose proof (firstn_sorted ts_ge 5 _
                (proj2 (order_by_ts_desc_admissible (rows t)))) as H.
  induction H as [|x l Hs IH Hx]; cbn; constructor.
  - exact IH.
  - rewrite Forall_forall in *. intros y Hy.
    apply in_map_iff in Hy. destruct Hy as [z [Hz Hin]]. subst y.
    cbn. apply Hx, Hin.
Qed.

(* ================================================================== *)
(** * The recent rows in the reply *)
(* ================================================================== *)

(** One accepted upload that the datastore answers, in the two-process
    system. *)
Lemma step_clean_upload (penv : ProcessEnv) (c : Call) (s : System)
    (f : option File) :
  alive (full s) = true ->
  alive (short s) = true ->
  is_upload (request c) ->
  single "image" (payload (request c)) = inr f ->
  first_fault (env c) = None ->
  let image := option_map buffer f in
  let t' :=
    insert_request (now (env c)) "backend-a"
      (JSON_stringify (mkMeta (truthy image))) image (requests s) in
  step penv c s =
  (Responded
     (mkResponse 200 cors_headers
        (Json
           (Obj [("backend", Str "backend-a");
                 ("rows", Arr (map row_object (select_recent t')));
                 ("uploadedImage",
                  match image with
                  | Some b => Str (base64_encode b)
                  | None => Null
                  end)]))),
   mkSystem (full s) (short s) t').
Proof.
  intros Hf Hs Hup Hacc Hfault. unfold first_fault in Hfault.
  destruct (insert_fault (env c)) eqn:Hi; [discriminate|].
  unfold step. destruct (target c).
  - rewrite (upload_outcome penv Full _ _ _ _ f Hup Hf Hacc), Hi, Hfault.
    rewrite (process_eta _ Hf). reflexivity.
  - rewrite (upload_outcome penv Short _ _ _ _ f Hup Hs Hacc), Hi, Hfault.
    rewrite (process_eta _ Hs). reflexivity.
Qed.

Lemma insert_keeps_chronology (t : Table) (t0 clock : Z)
    (name text : string) (img : option Buffer) :
  chronological (rows t) ->
  stamped_by t0 (rows t) ->
  t0 < clock ->
  chronological (rows (insert_request clock name text img t))
  /\ stamped_by clock (rows (insert_request clock name text img t)).
Proof.
  intros Hc Hs Hlt. unfold insert_request. cbn [rows]. split.
  - apply chronological_snoc; [exact Hc|].
    eapply Forall_impl; [|exact Hs]. cbn. intros r Hr. lia.
  - apply Forall_app. split.
    + eapply Forall_impl; [|exact Hs]. cbn. intros r Hr. lia.
    + constructor; [cbn; lia | constructor].
Qed.

Lemma run_snoc_replies (penv : ProcessEnv) (calls : list Call) (c : Call)
    (s : System) :
  fst (run penv (calls ++ [c]) s) <> [].
Proof.
  destruct calls as [|c0 calls]; cbn [app]; rewrite run_cons; discriminate.
Qed.

Lemma last_cons {A : Type} (a d : A) (l : list A) :
  l <> [] -> last (a :: l) d = last l d.
Proof. destruct l; [contradiction | reflexivity]. Qed.

(** The newest row heads the list, and five rows are listed as soon as
    the table holds five. *)
Lemma newest_first_snoc (t : Table) (older : list Row) (newest : Row) :
  rows t = (older ++ [newest])%list ->
  hd_error (newest_first t) = Some (select_list newest)
  /\ ((4 <= List.length older)%nat ->
      List.length (newest_first t) = 5%nat).
Proof.
  intros H. unfold newest_first. rewrite H, rev_app_distr.
  cbn [rev app]. rewrite firstn_cons. cbn [map hd_error]. split.
  - reflexivity.
  - intros Hlen. cbn [List.length].
    rewrite length_map, length_firstn, length_rev. lia.
Qed.

(** One call of any kind keeps the table in chronological order, as
    long as the datastore's clock has advanced. *)
Lemma step_keeps_chronology (penv : ProcessEnv) (c : Call) (s : System)
    (t0 : Z) :
  alive (full s) = true ->
  alive (short s) = true ->
  chronological (rows (requests s)) ->
  stamped_by t0 (rows (requests s)) ->
  t0 < now (env c) ->
  let s1 := snd (step penv c s) in
  alive (full s1) = true
  /\ alive (short s1) = true
  /\ chronological (rows (requests s1))
  /\ stamped_by (now (env c)) (rows (requests s1))
  /\ (List.length (rows (requests s)) <= List.length (rows (requests s1)))%nat.
Proof.
  intros Hf Hs Hchron Hstamp Hlt s1. subst s1.
  destruct (step_effect penv c s Hf Hs) as [Hf' [Hs' [Hsame|[f Hins]]]].
  - rewrite Hsame. repeat split; auto.
    eapply Forall_impl; [|exact Hstamp]. cbn. intros r Hr. lia.
  - rewrite Hins.
    destruct (insert_keeps_chronology (requests s) t0 (now (env c))
                "backend-a"
                (JSON_stringify (mkMeta (truthy (option_map buffer f))))
                (option_map buffer f) Hchron Hstamp Hlt) as [Hc' Hst'].
    repeat split; auto.
    unfold insert_request. cbn [rows]. rewrite length_app. lia.
Qed.

(** Any sequence of requests followed by an answered upload, followed
    through. *)
Lemma run_clean_uploads (penv : ProcessEnv) (calls : list Call) (c : Call) :
  forall (s : System) (t0 : Z),
  alive (full s) = true ->
  alive (short s) = true ->
  clean_upload c ->
  chronological (rows (requests s)) ->
  stamped_by t0 (rows (requests s)) ->
  clock_advances t0 (calls ++ [c]) ->
  let out := run penv (calls ++ [c]) s in
  let final := requests (snd out) in
  chronological (rows final)
  /\ (exists r,
         last (fst out) NoReply = Responded r
         /\ status r = 200
         /\ field "rows" r = Some (Arr (map row_object (select_recent final))))
  /\ (exists older newest,
         rows final = (older ++ [newest])%list
         /\ (List.length (rows (requests s)) <= List.length older)%nat
         /\ (Forall clean_upload calls ->
             List.length older
               = (List.length (rows (requests s)) + List.length calls)%nat)).
Proof.
  induction calls as [|c0 calls IH]; intros s t0 Hf Hs Hclean Hchron Hstamp Hclock.
  - cbn [app] in *. destruct Hclean as [Hup [[f Hacc] Hok]].
    destruct Hclock as [Hlt _].
    rewrite run_cons. cbn [run fst snd last].
    rewrite (step_clean_upload penv c s f Hf Hs Hup Hacc Hok).
    cbn [fst snd requests].
    destruct (insert_keeps_chronology (requests s) t0 (now (env c))
                "backend-a"
                (JSON_stringify (mkMeta (truthy (option_map buffer f))))
                (option_map buffer f) Hchron Hstamp Hlt)
      as [Hc' _].
    split; [exact Hc'|]. split.
    + eexists. split; [reflexivity|]. split; reflexivity.
    + eexists. eexists. split; [reflexivity|]. split; [lia|].
      intros _. cbn. lia.
  - cbn [app] in *. destruct Hclock as [Hlt Hclock].
    rewrite run_cons. cbn [fst snd].
    rewrite (last_cons _ _ _ (run_snoc_replies penv calls c _)).
    destruct (step_keeps_chronology penv c0 s t0 Hf Hs Hchron Hstamp Hlt)
      as [Hf' [Hs' [Hc' [Hst' Hlen]]]].
    destruct (IH (snd (step penv c0 s)) (now (env c0)) Hf' Hs' Hclean Hc'
                Hst' Hclock)
      as [H1 [H2 [older [newest [H3 [H4 H5]]]]]].
    split; [exact H1|]. split; [exact H2|].
    exists older, newest. split; [exact H3|]. split; [lia|].
    intros Hall. inversion Hall as [|? ? [Hup [[f Hacc] Hok]] Hrest]; subst.
    rewrite (H5 Hrest).
    rewrite (step_clean_upload penv c0 s f Hf Hs Hup Hacc Hok).
    unfold insert_request. cbn [snd requests rows List.length].
    rewrite length_app. cbn [List.length]. lia.
Qed.

(** C2, as stated, fails: the read-back selects by [ts], not by
    insertion, and the claim holds only while each insert is stamped
    later than every row in the table.  Seven uploads handled in
    sequence, the seventh stamped at the same instant as the sixth: the
    seventh reply lists five rows and is headed by row 6, not by the row
    just inserted.  And an upload stamped 50 into a table whose five rows
    are stamped 1000 and later: the 200 reply lists those five, and the
    most recently inserted row, id 6, is not among them. *)
Lemma newest_row_is_not_always_first :
  (let out := run bare (first_six ++ [tied_seventh]) fresh in
   Forall clean_upload (first_six ++ [tied_seventh])
   /\ map id (rows (requests (snd out))) = [1; 2; 3; 4; 5; 6; 7]
   /\ map ts (rows (requests (snd out))) = [1; 2; 3; 4; 5; 6; 6]
   /\ exists r,
        last (fst out) NoReply = Responded r
        /\ status r = 200
        /\ row_ids r
           = Some [Some (Num 6); Some (Num 7); Some (Num 5); Some (Num 4);
                   Some (Num 3)])
  /\ (let out :=
        serve (program bare Full) (answering 50) post_nothing
          (BackendA.start bare) ahead in
      map id (rows (snd (snd out))) = [1; 2; 3; 4; 5; 6]
      /\ exists r,
           fst out = Responded r
           /\ status r = 200
           /\ row_ids r
              = Some [Some (Num 5); Some (Num 4); Some (Num 3); Some (Num 2);
                      Some (Num 1)]).
Proof.
  split.
  - set (out := run bare (first_six ++ [tied_seventh]) fresh).
    vm_compute in out. subst out. cbv zeta.
    split; [repeat constructor; eexists; reflexivity|].
    split; [reflexivity|]. split; [reflexivity|].
    eexists. split; [reflexivity|]. split; reflexivity.
  - set (out := serve (program bare Full) (answering 50) post_nothing
                  (BackendA.start bare) ahead).
    vm_compute in out. subst out. cbv zeta.
    split; [reflexivity|].
    eexists. split; [reflexivity|]. split; reflexivity.
Qed.

(** C2 (amended): a successful POST answered while the datastore's
    clock advances.  After any sequence of requests to either program,
    each stamped by the datastore later than the one before and than
    every row already in the table, the reply to an upload that the
    middleware accepts and the datastore answers lists the most recently
    inserted rows of the whole table, whichever backend wrote them and
    with no filter, newest first and so in descending [ts], each with
    the four columns [id, backend_name, ts, meta] only; the list is headed
    by the row this request inserted; and it has exactly five entries as
    soon as the table holds five rows, as after seven inserts. *)
Theorem recent_five (penv : ProcessEnv) (calls : list Call) (c : Call)
    (s : System) (t0 : Z) :
  alive (full s) = true ->
  alive (short s) = true ->
  clean_upload c ->
  chronological (rows (requests s)) ->
  stamped_by t0 (rows (requests s)) ->
  clock_advances t0 (calls ++ [c]) ->
  let out := run penv (calls ++ [c]) s in
  let final := requests (snd out) in
  exists r older newest,
    last (fst out) NoReply = Responded r
    /\ status r = 200
    /\ field "rows" r = Some (Arr (map row_object (newest_first final)))
    /\ newest_first final = map select_list (firstn 5 (rev (rows final)))
    /\ (forall x, get "image" (row_object x) = None)
    /\ descending (newest_first final)
    /\ rows final = (older ++ [newest])%list
    /\ (Forall clean_upload calls ->
        List.length older
          = (List.length (rows (requests s)) + List.length calls)%nat)
    /\ hd_error (newest_first final) = Some (select_list newest)
    /\ ((4 <= List.length older)%nat ->
        List.length (newest_first final) = 5%nat).
Proof.
  intros Hf Hs Hclean Hchron Hstamp Hclock out final. subst out final.
  destruct (run_clean_uploads penv calls c s t0 Hf Hs Hclean Hchron Hstamp
              Hclock)
    as [H1 [[r [Hr [Hst Hrows]]] [older [newest [H3 [_ H4]]]]]].
  destruct (newest_first_snoc _ older newest H3) as [Hhd Hlen].
  exists r, older, newest.
  rewrite select_recent_chronological in Hrows by exact H1.
  repeat split; try assumption.
  rewrite <- select_recent_chronological by exact H1.
  apply select_recent_descending.
Qed.

(** C2 at work: seven uploads into an empty table, sent to the two
    programs in turn; the seventh reply lists rows 7 to 3. *)
Lemma recent_five_witness :
  let out := run bare (first_six ++ [seventh]) fresh in
  let final := requests (snd out) in
  exists r,
    last (fst out) NoReply = Responded r
    /\ status r = 200
    /\ field "rows" r = Some (Arr (map row_object (newest_first final)))
    /\ List.length (newest_first final) = 5%nat
    /\ map r_id (newest_first final) = [7; 6; 5; 4; 3]
    /\ List.length (rows final) = 7%nat.
Proof.
  assert (Hclean : clean_upload seventh).
  { repeat split; eexists; reflexivity. }
  assert (Hsix : Forall clean_upload first_six).
  { repeat constructor; eexists; reflexivity. }
  assert (Hchron : chronological (rows (requests fresh))) by constructor.
  assert (Hstamp : stamped_by 0 (rows (requests fresh))) by constructor.
  assert (Hclock : clock_advances 0 (first_six ++ [seventh])).
  { cbn. repeat split; reflexivity. }
  destruct (recent_five bare first_six seventh fresh 0 eq_refl eq_refl
              Hclean Hchron Hstamp Hclock)
    as [r [older [newest [H1 [H2 [H3 [_ [_ [_ [H6 [H7 [_ H9]]]]]]]]]]]].
  exists r. split; [exact H1|]. split; [exact H2|]. split; [exact H3|].
  split; [apply H9; rewrite (H7 Hsix); cbn; lia|].
  split; [reflexivity|].
  rewrite H6, length_app, (H7 Hsix). reflexivity.
Defined.

(** The select has no WHERE clause: rows of another backend are listed
    with those of the backend that answers. *)
Example recent_rows_across_backends :
  option_map (field "rows")
    (match
       fst (serve (program bare Full) (answering 40) post_nothing
              (BackendA.start bare) seeded)
     with
     | Responded r => Some r
     | _ => None
     end)
  = Some
      (Some
         (Arr
            (map row_object
               [mkRecent 4 "backend-a" 40 (JSON_stringify (mkMeta false));
                mkRecent 3 "backend-b" 30 (JSON_stringify (mkMeta true));
                mkRecent 2 "backend-b" 20 (JSON_stringify (mkMeta false));
                mkRecent 1 "backend-b" 10 (JSON_stringify (mkMeta false))]))).
Proof. reflexivity. Qed.

(* ================================================================== *)
(** * Further properties of the services *)
(* ================================================================== *)

Import Routes.

(** A live process answers, unless the request is an upload that waits
    for a statement that never settles; and what the reply is then, by
    kind of request. *)
Lemma serve_reply (penv : ProcessEnv) (i : Service) (e : Env)
    (req : Request) (p : Process) (t : Table) :
  alive p = true ->
  (exists r,
      fst (serve (program penv i) e req p t) = Responded r
      /\ headers r = cors_headers
      /\ (status r = 404 <-> served i req = false))
  \/ (fst (serve (program penv i) e req p t) = NoReply
      /\ is_upload req
      /\ first_fault e = Some NeverSettles).
Proof.
  intros Ha.
  destruct (request_cases req) as [[Hup [f Hf]]|[[Hup [err Hf]]|Hn]].
  - rewrite (upload_outcome penv i e req p t f Hup Ha Hf).
    pose proof Hup as [Hm Hr]. unfold served, first_fault. rewrite Hm, Hr.
    destruct (insert_fault e) as [[ie|]|], (select_fault e) as [[se|]|];
      cbn [fst];
      try (right; split; [reflexivity|]; split; [exact Hup | reflexivity]);
      left; eexists; (split; [reflexivity|]); (split; [reflexivity|]);
      cbn; split; discriminate.
  - rewrite (refused_upload_outcome penv i e req p t err Hup Ha Hf).
    destruct Hup as [Hm Hr]. unfold served. rewrite Hm, Hr.
    left. eexists. split; [reflexivity|]. split; [reflexivity|].
    cbn. split; discriminate.
  - left. destruct req as [m path b f]. unfold served.
    cbn [method Express.path].
    assert (Hapi : m = POST -> route_match "/api/a" path = false).
    { intros ->. destruct (route_match "/api/a" path) eqn:E; [|reflexivity].
      exfalso. apply Hn. split; [reflexivity | exact E]. }
    unfold serve. rewrite Ha.
    destruct m; try rewrite (Hapi eq_refl);
      destruct (route_match "/" path) eqn:Hroot,
               (route_match "/health" path) eqn:Hhealth,
               (route_match "/api/a" path) eqn:Ha';
      try discriminate (Hapi eq_refl);
      destruct i; cbn; rewrite ?Hroot, ?Hhealth, ?Ha'; cbn;
      eexists; (split; [reflexivity|]); (split; [reflexivity|]);
      cbn; split; (discriminate || reflexivity).
Qed.

(** X1: whatever the request (any method, any path, served or not) and
    however it ends (200, 404, or one of the two 500s), the reply carries
    exactly the three CORS headers: the middleware runs before every
    route, and nothing after it touches the headers. *)
Theorem cors_on_every_reply (penv : ProcessEnv) (i : Service) (e : Env)
    (req : Request) (p : Process) (t : Table) (r : Response) :
  fst (serve (program penv i) e req p t) = Responded r ->
  headers r = cors_headers.
Proof.
  intros H. destruct (alive p) eqn:Ha.
  - destruct (serve_reply penv i e req p t Ha)
      as [[r' [Hr [Hh _]]]|[Hr _]]; rewrite Hr in H.
    + inversion H; subst r'. exact Hh.
    + discriminate H.
  - unfold serve in H. rewrite Ha in H. discriminate H.
Qed.

(** X1 at work: the 500 of a refused upload has the headers too. *)
Lemma cors_on_every_reply_witness :
  fst (serve (program bare Short) down post_misfiled
         (BackendShort.start bare) Pg.empty)
    = Responded
        (mkResponse 500 cors_headers
           (StackPage (mkError "Unexpected field")))
  /\ headers
       (mkResponse 500 cors_headers (StackPage (mkError "Unexpected field")))
     = cors_headers.
Proof.
  split; [reflexivity|].
  apply (cors_on_every_reply bare Short down post_misfiled
           (BackendShort.start bare) Pg.empty).
  reflexivity.
Defined.

(** X2: a request is answered 404 exactly when the program has no layer
    for it: any PUT, PATCH or DELETE, a GET, HEAD or POST on a path that
    no route of that program matches.  Every request that is served gets
    another status. *)
Theorem not_found_iff_unserved (penv : ProcessEnv) (i : Service) (e : Env)
    (req : Request) (p : Process) (t : Table) :
  alive p = true ->
  (status_of (fst (serve (program penv i) e req p t)) = Some 404
   <-> served i req = false).
Proof.
  intros Ha.
  destruct (serve_reply penv i e req p t Ha)
    as [[r [Hr [_ H404]]]|[Hr [[Hm Hp] _]]];
    rewrite Hr; cbn [status_of]; split.
  - intros H. apply H404. inversion H. reflexivity.
  - intros H. f_equal. apply H404. exact H.
  - discriminate.
  - unfold served. rewrite Hm, Hp. discriminate.
Qed.

(** X2 at work: [DELETE /api/a] is not served, [GET /api/a] is served by
    the full program only. *)
Lemma not_found_iff_unserved_witness :
  alive (BackendA.start bare) = true
  /\ status_of
       (fst (serve (program bare Full) (answering 1)
               (mkRequest DELETE "/api/a" NotMultipart None)
               (BackendA.start bare)
               Pg.empty)) = Some 404
  /\ status_of
       (fst (serve (program bare Short) (answering 1) (get_of "/api/a")
               (BackendA.start bare) Pg.empty)) = Some 404
  /\ served Full (get_of "/api/a") = true.
Proof.
  split; [reflexivity|]. split; [|split; [|reflexivity]].
  - apply (not_found_iff_unserved bare Full (answering 1)
             (mkRequest DELETE "/api/a" NotMultipart None)
             (BackendA.start bare) Pg.empty eq_refl).
    reflexivity.
  - apply (not_found_iff_unserved bare Short (answering 1) (get_of "/api/a")
             (BackendA.start bare) Pg.empty eq_refl).
    reflexivity.
Defined.

Lemma step_reply (penv : ProcessEnv) (c : Call) (s : System) :
  alive (full s) = true ->
  alive (short s) = true ->
  ((exists r, fst (step penv c s) = Responded r)
   \/ (fst (step penv c s) = NoReply
       /\ is_upload (request c)
       /\ first_fault (env c) = Some NeverSettles))
  /\ alive (full (snd (step penv c s))) = true
  /\ alive (short (snd (step penv c s))) = true.
Proof.
  intros Hf Hs. unfold step. destruct (target c).
  - pose proof (serve_reply penv Full (env c) (request c) (full s)
                  (requests s) Hf) as Hr.
    pose proof (serve_keeps_alive penv Full (env c) (request c) (full s)
                  (requests s)) as Hk.
    destruct (serve (program penv Full) (env c) (request c) (full s)
                (requests s)) as [r0 [p t]].
    cbn in *. rewrite Hk, Hf. split; [|split; auto].
    destruct Hr as [[r [Hr _]]|Hr]; [left; exists r; exact Hr | right; exact Hr].
  - pose proof (serve_reply penv Short (env c) (request c) (short s)
                  (requests s) Hs) as Hr.
    pose proof (serve_keeps_alive penv Short (env c) (request c) (short s)
                  (requests s)) as Hk.
    destruct (serve (program penv Short) (env c) (request c) (short s)
                (requests s)) as [r0 [p t]].
    cbn in *. rewrite Hk, Hs. split; [|split; auto].
    destruct Hr as [[r [Hr _]]|Hr]; [left; exists r; exact Hr | right; exact Hr].
Qed.

(** X3: no sequence of requests brings a process down, and a request
    goes unanswered only when it is an upload that waits for an insert
    or a read-back that never settles: the programs set no timeout on
    the pool or on the queries.  Every other request gets exactly one
    response, whether the datastore answers or rejects: each handler
    sends once on every path, and the only code that can throw, the two
    queries, sits inside the [try].  Both processes are still up at the
    end, and a request left waiting does not keep later ones from being
    answered. *)
Theorem every_request_is_answered (penv : ProcessEnv) (calls : list Call)
    (s : System) :
  alive (full s) = true ->
  alive (short s) = true ->
  Forall2
    (fun c reply =>
       (exists r, reply = Responded r)
       \/ (reply = NoReply
           /\ is_upload (request c)
           /\ first_fault (env c) = Some NeverSettles))
    calls (fst (run penv calls s))
  /\ (Forall (fun c => first_fault (env c) <> Some NeverSettles) calls ->
      Forall (fun reply => exists r, reply = Responded r)
        (fst (run penv calls s)))
  /\ alive (full (snd (run penv calls s))) = true
  /\ alive (short (snd (run penv calls s))) = true.
Proof.
  revert s. induction calls as [|c calls IH]; intros s Hf Hs.
  - cbn. repeat split; auto.
  - rewrite run_cons. cbn [fst snd].
    destruct (step_reply penv c s Hf Hs) as [Hr [Hf' Hs']].
    destruct (IH (snd (step penv c s)) Hf' Hs') as [H1 [H2 [H3 H4]]].
    split; [constructor; [exact Hr | exact H1]|].
    split; [|split; assumption].
    intros Hall. inversion Hall as [|? ? Hc Hrest]; subst.
    constructor; [|exact (H2 Hrest)].
    destruct Hr as [Hr|[_ [_ Hr]]]; [exact Hr | contradiction].
Qed.

(** X3 at work: an upload whose insert never settles, an upload against
    a datastore that is down, and a health check. *)
Lemma every_request_is_answered_witness :
  let calls :=
    [mkCall Full stalled (post_file ten_bytes);
     mkCall Full down (post_file ten_bytes);
     mkCall Short down (get_of "/health")] in
  alive (full fresh) = true
  /\ map status_of (fst (run cluster calls fresh))
     = [None; Some 500; Some 200]
  /\ Forall (fun reply => exists r, reply = Responded r)
       (fst (run cluster (tl calls) fresh))
  /\ alive (full (snd (run cluster calls fresh))) = true
  /\ alive (short (snd (run cluster calls fresh))) = true.
Proof.
  destruct (every_request_is_answered cluster
              [mkCall Full stalled (post_file ten_bytes);
               mkCall Full down (post_file ten_bytes);
               mkCall Short down (get_of "/health")]
              fresh eq_refl eq_refl) as [_ [_ [H3 H4]]].
  destruct (every_request_is_answered cluster
              [mkCall Full down (post_file ten_bytes);
               mkCall Short down (get_of "/health")]
              fresh eq_refl eq_refl) as [_ [H2 _]].
  split; [reflexivity|]. split; [reflexivity|]. split.
  - apply H2. repeat constructor; discriminate.
  - split; assumption.
Defined.

Lemma step_quiet (penv : ProcessEnv) (c : Call) (s : System) :
  ~ is_upload (request c) -> snd (step penv c s) = s.
Proof.
  intros Hn. unfold step. destruct (target c).
  - pose proof (other_requests_are_quiet penv Full (env c) (request c)
                  (full s) (requests s) Hn) as H.
    destruct (serve (program penv Full) (env c) (request c) (full s)
                (requests s)) as [r [p t]].
    cbn in H. inversion H; subst. destruct s; reflexivity.
  - pose proof (other_requests_are_quiet penv Short (env c) (request c)
                  (short s) (requests s) Hn) as H.
    destruct (serve (program penv Short) (env c) (request c) (short s)
                (requests s)) as [r [p t]].
    cbn in H. inversion H; subst. destruct s; reflexivity.
Qed.

(** X4: only a POST to the upload route has any effect.  A sequence of
    requests none of which is one (health checks, preflights, the
    informational GETs, requests for unknown routes) leaves the table and
    the consoles of both processes exactly as they were, whatever the
    datastore does meanwhile: no other layer queries the pool or logs. *)
Theorem only_uploads_have_effects (penv : ProcessEnv) (calls : list Call)
    (s : System) :
  Forall (fun c => ~ is_upload (request c)) calls ->
  snd (run penv calls s) = s.
Proof.
  revert s. induction calls as [|c calls IH]; intros s Hall.
  - reflexivity.
  - inversion Hall as [|? ? Hc Hrest]; subst.
    rewrite run_cons. cbn [snd].
    rewrite (step_quiet penv c s Hc). apply IH, Hrest.
Qed.

(** X4 at work. *)
Lemma only_uploads_have_effects_witness :
  let calls :=
    [mkCall Full down (get_of "/health");
     mkCall Short down (options_of "/api/a");
     mkCall Full down (get_of "/");
     mkCall Short down
       (mkRequest PUT "/api/a" (Multipart [("image", mkFile ten_bytes)] None)
          None)] in
  snd (run bare calls (mkSystem (BackendA.start bare)
                         (BackendShort.start bare) seeded))
  = mkSystem (BackendA.start bare) (BackendShort.start bare) seeded.
Proof.
  apply (only_uploads_have_effects bare).
  repeat constructor; intros [Hm _]; discriminate Hm.
Defined.

(** X19: a HEAD request is answered as the GET request for the same
    path would be, without the body: same status (200 on a path with a
    GET route of that program, 404 on any other, the upload path of the
    short program included), same headers, nothing sent after them, and
    no effect on the table or the console. *)
Theorem head_is_get_without_body (penv : ProcessEnv) (i : Service)
    (e : Env) (pathname : string) (b : Payload) (f : option File)
    (p : Process) (t : Table) :
  alive p = true ->
  exists r,
    serve (program penv i) e (mkRequest GET pathname b f) p t
      = (Responded r, (p, t))
    /\ body r <> NoBody
    /\ serve (program penv i) e (mkRequest HEAD pathname b f) p t
       = (Responded (mkResponse (status r) (headers r) NoBody), (p, t)).
Proof.
  intros Ha. unfold serve. rewrite Ha.
  destruct (route_match "/" pathname) eqn:Hroot,
           (route_match "/health" pathname) eqn:Hhealth,
           (route_match "/api/a" pathname) eqn:Hapi;
    destruct i; cbn; rewrite ?Hroot, ?Hhealth, ?Hapi; cbn;
    rewrite (process_eta p Ha);
    eexists; (split; [reflexivity|]); (split; [discriminate | reflexivity]).
Qed.

(** X19 at work: [HEAD /] on both programs. *)
Lemma head_is_get_without_body_witness :
  alive (BackendA.start bare) = true
  /\ fst (serve (program bare Full) (answering 1)
            (mkRequest HEAD "/" NotMultipart None) (BackendA.start bare)
            Pg.empty)
     = Responded (mkResponse 200 cors_headers NoBody)
  /\ fst (serve (program bare Short) (answering 1)
            (mkRequest HEAD "/" NotMultipart None) (BackendShort.start bare)
            Pg.empty)
     = Responded (mkResponse 404 cors_headers NoBody).
Proof.
  split; [reflexivity|].
  destruct (head_is_get_without_body bare Full (answering 1) "/"
              NotMultipart None (BackendA.start bare) Pg.empty eq_refl)
    as [r1 [G1 [_ H1]]].
  destruct (head_is_get_without_body bare Short (answering 1) "/"
              NotMultipart None (BackendShort.start bare) Pg.empty eq_refl)
    as [r2 [G2 [_ H2]]].
  rewrite H1, H2. cbn [fst].
  cbn in G1, G2. inversion G1; subst r1. inversion G2; subst r2.
  split; reflexivity.
Defined.

(** X5: the two informational routes of [backend-a/index.js].  A GET
    whose path matches [/] is answered with the service description, one
    whose path matches [/api/a] with the usage hint; both are 200, name
    the backend, and depend on nothing: not on the table, not on the
    datastore, not on the environment. *)
Theorem informational_replies (penv : ProcessEnv) (e : Env) (req : Request)
    (p : Process) (t : Table) :
  method req = GET ->
  alive p = true ->
  (route_match "/" (path req) = true ->
   serve (program penv Full) e req p t =
   (Responded
      (mkResponse 200 cors_headers
         (Json
            (Obj [("backend", Str "backend-a");
                  ("message", Str "Backend service is running");
                  ("endpoints",
                   Obj [("health", Str "/health");
                        ("api", Str "/api/a (POST for data submission)")])]))),
    (p, t)))
  /\ (route_match "/api/a" (path req) = true ->
      serve (program penv Full) e req p t =
      (Responded
         (mkResponse 200 cors_headers
            (Json
               (Obj [("backend", Str "backend-a");
                     ("message", Str "Use POST to submit data");
                     ("endpoint", Str "/api/a")]))),
       (p, t))).
Proof.
  intros Hm Ha. destruct req as [m path ups f]. cbn in Hm. subst m.
  cbn [Express.path]. unfold serve. rewrite Ha. split; intros Hr.
  - cbn. rewrite Hr. cbn. rewrite (process_eta p Ha). reflexivity.
  - pose proof (api_is_not_root _ Hr) as Hroot.
    pose proof (api_is_not_health _ Hr) as Hh.
    cbn. rewrite Hroot, Hh, Hr. cbn. rewrite (process_eta p Ha).
    reflexivity.
Qed.

(** X5 at work: the path is matched without regard to case or to a
    trailing slash. *)
Lemma informational_replies_witness :
  method (get_of "/API/a/") = GET
  /\ route_match "/api/a" (path (get_of "/API/a/")) = true
  /\ field "endpoint"
       (mkResponse 200 cors_headers
          (Json
             (Obj [("backend", Str "backend-a");
                   ("message", Str "Use POST to submit data");
                   ("endpoint", Str "/api/a")])))
     = Some (Str "/api/a")
  /\ fst (serve (program cluster Full) down (get_of "/API/a/")
            (BackendA.start cluster) seeded)
     = Responded
         (mkResponse 200 cors_headers
            (Json
               (Obj [("backend", Str "backend-a");
                     ("message", Str "Use POST to submit data");
                     ("endpoint", Str "/api/a")]))).
Proof.
  split; [reflexivity|]. split; [reflexivity|]. split; [reflexivity|].
  rewrite (proj2 (informational_replies cluster down (get_of "/API/a/")
                    (BackendA.start cluster) seeded eq_refl eq_refl)
             eq_refl).
  reflexivity.
Defined.

(** What a sequence of requests writes: the new rows come after the old
    ones, each under the identity [backend-a] and stamped with the clock
    of one of the calls, with ids taken from the sequence in increasing
    order. *)
Lemma run_written_rows (penv : ProcessEnv) (calls : list Call) :
  forall s : System,
  exists written,
    rows (requests (snd (run penv calls s)))
      = (rows (requests s) ++ written)%list
    /\ id_seq (requests s) <= id_seq (requests (snd (run penv calls s)))
    /\ Forall
         (fun r =>
            id_seq (requests s) < id r
              <= id_seq (requests (snd (run penv calls s)))
            /\ backend_name r = "backend-a"
            /\ exists c, In c calls /\ ts r = now (env c))
         written
    /\ StronglySorted Z.lt (map id written).
Proof.
  induction calls as [|c calls IH]; intros s.
  - exists []. cbn. rewrite app_nil_r.
    repeat split; try constructor. lia.
  - rewrite run_cons. cbn [snd].
    destruct (IH (snd (step penv c s))) as [w2 [H1 [H2 [H3 H4]]]].
    assert (Hstep :
      requests (snd (step penv c s)) = requests s
      \/ exists f,
           requests (snd (step penv c s))
             = insert_request (now (env c)) "backend-a"
                 (JSON_stringify (mkMeta (truthy (option_map buffer f))))
                 (option_map buffer f) (requests s)).
    { unfold step. destruct (target c).
      - pose proof (serve_table_effect penv Full (env c) (request c)
                      (full s) (requests s)) as H.
        destruct (serve (program penv Full) (env c) (request c) (full s)
                    (requests s)) as [r [p t]]. exact H.
      - pose proof (serve_table_effect penv Short (env c) (request c)
                      (short s) (requests s)) as H.
        destruct (serve (program penv Short) (env c) (request c) (short s)
                    (requests s)) as [r [p t]]. exact H. }
    destruct Hstep as [Hsame|[f Hins]].
    + rewrite Hsame in *. exists w2. split; [exact H1|].
      split; [exact H2|]. split; [|exact H4].
      eapply Forall_impl; [|exact H3]. cbn.
      intros r [Hid [Hn [c' [Hin Hts]]]].
      split; [exact Hid|]. split; [exact Hn|].
      exists c'. split; [right; exact Hin | exact Hts].
    + rewrite Hins in *. unfold insert_request in *. cbn [rows id_seq] in *.
      eexists (_ :: w2). split; [rewrite H1, <- app_assoc; reflexivity|].
      split; [lia|]. split.
      * constructor.
        -- cbn. split; [lia|]. split; [reflexivity|].
           exists c. split; [left; reflexivity | reflexivity].
        -- eapply Forall_impl; [|exact H3]. cbn.
           intros r [Hid [Hn [c' [Hin Hts]]]].
           split; [lia|]. split; [exact Hn|].
           exists c'. split; [right; exact Hin | exact Hts].
      * cbn. constructor; [exact H4|].
        rewrite Forall_forall in *. intros x Hx.
        apply in_map_iff in Hx. destruct Hx as [r [Hr Hin]]. subst x.
        destruct (H3 r Hin) as [Hid _]. lia.
Qed.

Lemma increasing_distinct (l : list Z) : StronglySorted Z.lt l -> NoDup l.
Proof.
  induction 1 as [|x l Hs IH Hx]; constructor; [|exact IH].
  intros Hin. rewrite Forall_forall in Hx. specialize (Hx x Hin). lia.
Qed.

(** X6: the primary key stays a key.  From a table whose ids are
    distinct and were all handed out by the sequence, any sequence of
    requests leads to a table with the same two properties; the rows
    written in between have ids above every earlier one, in strictly
    increasing order of insertion. *)
Theorem ids_stay_distinct (penv : ProcessEnv) (calls : list Call)
    (s : System) :
  seq_covers (requests s) ->
  NoDup (map id (rows (requests s))) ->
  let final := requests (snd (run penv calls s)) in
  seq_covers final
  /\ NoDup (map id (rows final))
  /\ exists written,
       rows final = (rows (requests s) ++ written)%list
       /\ StronglySorted Z.lt (map id written)
       /\ Forall
            (fun r => Forall (fun old => id old < id r) (rows (requests s)))
            written.
Proof.
  intros Hcov Hnd final. subst final.
  destruct (run_written_rows penv calls s) as [w [H1 [H2 [H3 H4]]]].
  unfold seq_covers in *. rewrite Forall_forall in Hcov, H3.
  split; [|split].
  - rewrite H1. apply Forall_app. split; rewrite Forall_forall.
    + intros r Hr. specialize (Hcov r Hr). lia.
    + intros r Hr. destruct (H3 r Hr) as [Hid _]. lia.
  - rewrite H1, map_app. apply NoDup_app; [exact Hnd | |].
    + apply increasing_distinct, H4.
    + intros x Hold Hnew.
      apply in_map_iff in Hold. destruct Hold as [a [Ea Ha]].
      apply in_map_iff in Hnew. destruct Hnew as [b [Eb Hb]].
      specialize (Hcov a Ha). destruct (H3 b Hb) as [Hid _]. lia.
  - exists w. split; [exact H1|]. split; [exact H4|].
    rewrite Forall_forall. intros r Hr. rewrite Forall_forall.
    intros old Hold. specialize (Hcov old Hold).
    destruct (H3 r Hr) as [Hid _]. lia.
Qed.

(** X6 at work: seven uploads into the table another writer filled. *)
Lemma ids_stay_distinct_witness :
  let final :=
    requests (snd (run bare (first_six ++ [seventh])
                     (mkSystem (BackendA.start bare)
                        (BackendShort.start bare) seeded))) in
  seq_covers seeded
  /\ NoDup (map id (rows final))
  /\ map id (rows final) = [1; 2; 3; 4; 5; 6; 7; 8; 9; 10].
Proof.
  assert (Hcov : seq_covers seeded).
  { repeat constructor; cbn; lia. }
  assert (Hnd : NoDup (map id (rows seeded))).
  { cbn. repeat constructor; cbn; intuition discriminate. }
  destruct (ids_stay_distinct bare (first_six ++ [seventh])
              (mkSystem (BackendA.start bare) (BackendShort.start bare)
                 seeded) Hcov Hnd) as [_ [H2 _]].
  split; [exact Hcov|]. split; [exact H2 | reflexivity].
Defined.

(** X7: every row the services write, over any sequence of requests,
    names the backend [backend-a] (never NULL, as the column demands) and
    carries as [ts] the datastore's clock reading during one of the
    requests of the sequence: the handler passes the identity constant
    and leaves the timestamp to the column default. *)
Theorem written_rows_are_labelled (penv : ProcessEnv) (calls : list Call)
    (s : System) :
  exists written,
    rows (requests (snd (run penv calls s)))
      = (rows (requests s) ++ written)%list
    /\ Forall
         (fun r =>
            backend_name r = "backend-a"
            /\ exists c, In c calls /\ ts r = now (env c))
         written.
Proof.
  destruct (run_written_rows penv calls s) as [w [H1 [_ [H3 _]]]].
  exists w. split; [exact H1|].
  eapply Forall_impl; [|exact H3]. cbn. intros r [_ H]. exact H.
Qed.

(* ================================================================== *)
(** * What the read-back lists, whatever the timestamps *)
(* ================================================================== *)

Lemma sorted_app_cross {A : Type} (R : A -> A -> Prop) (l1 l2 : list A) :
  StronglySorted R (l1 ++ l2) ->
  StronglySorted R l1 /\ forall a b, In a l1 -> In b l2 -> R a b.
Proof.
  induction l1 as [|x l1 IH]; cbn; intros H.
  - split; [constructor | intros a b []].
  - apply StronglySorted_inv in H. destruct H as [Hs Hx].
    destruct (IH Hs) as [H1 H2]. apply Forall_app in Hx.
    destruct Hx as [Hx1 Hx2]. split.
    + constructor; assumption.
    + intros a b [Ha|Ha] Hb.
      * subst a. rewrite Forall_forall in Hx2. apply Hx2, Hb.
      * apply H2; assumption.
Qed.

(** The select keeps the rows with the largest timestamps: the table
    splits into the rows listed and the rows left out, no row left out
    being stamped later than a listed one. *)
Lemma select_recent_split (t : Table) :
  exists listed rest,
    Permutation (rows t) (listed ++ rest)
    /\ select_recent t = map select_list listed
    /\ StronglySorted ts_ge listed
    /\ (forall a b, In a listed -> In b rest -> ts b <= ts a)
    /\ List.length listed = Nat.min 5 (List.length (rows t)).
Proof.
  destruct (order_by_ts_desc_admissible (rows t)) as [Hp Hs].
  exists (firstn 5 (order_by_ts_desc (rows t))),
         (skipn 5 (order_by_ts_desc (rows t))).
  rewrite firstn_skipn.
  rewrite <- (firstn_skipn 5 (order_by_ts_desc (rows t))) in Hs.
  destruct (sorted_app_cross _ _ _ Hs) as [H1 H2].
  split; [exact Hp|]. split; [reflexivity|]. split; [exact H1|]. split.
  - intros a b Ha Hb. specialize (H2 a b Ha Hb). unfold ts_ge in H2. lia.
  - rewrite length_firstn, (Permutation_length Hp). reflexivity.
Qed.

(** X8: the [rows] of every 200 reply, with no assumption on the
    timestamps in the table.  They are rows of the table as it is after
    the insert, at most five and exactly five once the table holds five,
    in non-increasing [ts]; and every row of the table that is not listed
    is stamped no later than each listed row.  The read-back selects by
    [ts], not by insertion. *)
Theorem rows_are_the_latest_stamped (penv : ProcessEnv) (i : Service)
    (e : Env) (req : Request) (p : Process) (t : Table) (r : Response) :
  method req = POST ->
  fst (serve (program penv i) e req p t) = Responded r ->
  status r = 200 ->
  let t' := snd (snd (serve (program penv i) e req p t)) in
  exists listed rest,
    field "rows" r = Some (Arr (map row_object (map select_list listed)))
    /\ Permutation (rows t') (listed ++ rest)
    /\ StronglySorted ts_ge listed
    /\ (forall a b, In a listed -> In b rest -> ts b <= ts a)
    /\ List.length listed = Nat.min 5 (List.length (rows t')).
Proof.
  intros Hm Hr Hst t'. subst t'.
  destruct (alive p) eqn:Ha.
  2:{ unfold serve in Hr. rewrite Ha in Hr. discriminate Hr. }
  destruct (request_cases req) as [[Hup [f Hf]]|[[Hup [err Hf]]|Hn]].
  - rewrite (upload_outcome penv i e req p t f Hup Ha Hf) in Hr |- *.
    destruct (insert_fault e) as [[ie|]|], (select_fault e) as [[se|]|];
      cbn [fst snd] in Hr |- *;
      try discriminate Hr; inversion Hr; subst r; try discriminate Hst.
    match goal with
    | |- context [select_recent ?x] =>
        destruct (select_recent_split x)
          as [listed [rest [H1 [H2 [H3 [H4 H5]]]]]]
    end.
    exists listed, rest. cbn. rewrite H2. repeat split; assumption.
  - rewrite (refused_upload_outcome penv i e req p t err Hup Ha Hf) in Hr.
    inversion Hr; subst r. discriminate Hst.
  - exfalso.
    destruct (serve_reply penv i e req p t Ha)
      as [[r' [Hr' [_ H404]]]|[_ [Hup _]]]; [|exact (Hn Hup)].
    rewrite Hr in Hr'. inversion Hr'; subst r'.
    assert (Hs : served i req = false).
    { unfold served. rewrite Hm.
      destruct (route_match "/api/a" (path req)) eqn:E; [|reflexivity].
      exfalso. apply Hn. split; assumption. }
    apply H404 in Hs. rewrite Hs in Hst. discriminate Hst.
Qed.

(** X8 at work: an upload stamped 15 into the seeded table (stamps 10,
    20, 30) is listed, but not first. *)
Lemma rows_are_the_latest_stamped_witness :
  let out :=
    serve (program bare Full) (answering 15) post_nothing
      (BackendA.start bare) seeded in
  exists r,
    fst out = Responded r
    /\ status r = 200
    /\ option_map (get "rows") (json_of r)
       = Some
           (Some
              (Arr
                 (map row_object
                    [mkRecent 3 "backend-b" 30 (JSON_stringify (mkMeta true));
                     mkRecent 2 "backend-b" 20 (JSON_stringify (mkMeta false));
                     mkRecent 4 "backend-a" 15 (JSON_stringify (mkMeta false));
                     mkRecent 1 "backend-b" 10
                       (JSON_stringify (mkMeta false))])))
    /\ exists listed rest,
         field "rows" r = Some (Arr (map row_object (map select_list listed)))
         /\ Permutation (rows (snd (snd out))) (listed ++ rest)
         /\ StronglySorted ts_ge listed
         /\ (forall a b, In a listed -> In b rest -> ts b <= ts a)
         /\ List.length listed = Nat.min 5 (List.length (rows (snd (snd out)))).
Proof.
  eexists. split; [reflexivity|]. split; [reflexivity|].
  split; [reflexivity|].
  apply (rows_are_the_latest_stamped bare Full (answering 15) post_nothing
           (BackendA.start bare) seeded); reflexivity.
Defined.

Lemma none_stamped_after (clock : Z) (x : Row) (l : list Row) :
  Forall (ts_ge x) l ->
  ts x <= clock ->
  stamped_after clock l = [].
Proof.
  unfold stamped_after. induction 1 as [|y l Hy Hl IH]; intros Hc; cbn.
  - reflexivity.
  - unfold ts_ge in Hy. destruct (clock <? ts y) eqn:E.
    + apply Z.ltb_lt in E. lia.
    + apply IH, Hc.
Qed.

(** In a list sorted by non-increasing [ts], the rows stamped after a
    given clock reading come first. *)
Lemma stamped_after_is_a_prefix (clock : Z) (l : list Row) :
  StronglySorted ts_ge l ->
  stamped_after clock l = firstn (List.length (stamped_after clock l)) l.
Proof.
  induction 1 as [|x l Hs IH Hx].
  - reflexivity.
  - unfold stamped_after in *. cbn [filter].
    destruct (clock <? ts x) eqn:E.
    + cbn [List.length firstn]. f_equal. exact IH.
    + apply Z.ltb_ge in E.
      pose proof (none_stamped_after clock x l Hx E) as Hnone.
      unfold stamped_after in Hnone. rewrite Hnone. reflexivity.
Qed.

(** Rearranging the rows rearranges the rows stamped after [clock]. *)
Lemma stamped_after_perm (clock : Z) (before after : list Row) :
  Permutation before after ->
  Permutation (stamped_after clock before) (stamped_after clock after).
Proof.
  unfold stamped_after.
  induction 1 as [|x l l' Hp IH|x y l|l l' l'' H1 IH1 H2 IH2]; cbn.
  - constructor.
  - destruct (clock <? ts x); [constructor|]; exact IH.
  - destruct (clock <? ts x), (clock <? ts y);
      try apply Permutation_refl. constructor.
  - eapply perm_trans; eassumption.
Qed.

Lemma firstn_incl {A : Type} (n : nat) (l : list A) (x : A) :
  In x (firstn n l) -> In x l.
Proof.
  revert l. induction n as [|n IH]; intros [|y l]; cbn; try tauto.
  intros [H|H]; [left; exact H | right; apply IH, H].
Qed.

(** Five rows stamped later than [clock] fill the result of the select:
    nothing stamped [clock] or earlier is listed. *)
Lemma later_rows_fill_the_list (clock : Z) (l : list Row) :
  (5 <= List.length (stamped_after clock l))%nat ->
  List.length (firstn 5 (order_by_ts_desc l)) = 5%nat
  /\ Forall (fun x => clock < ts x) (firstn 5 (order_by_ts_desc l)).
Proof.
  intros H5.
  destruct (order_by_ts_desc_admissible l) as [Hp Hs].
  pose proof (Permutation_length (stamped_after_perm clock _ _ Hp)) as Hlen.
  pose proof (stamped_after_is_a_prefix clock _ Hs) as Hpre.
  assert (Hfirst : firstn 5 (order_by_ts_desc l)
                   = firstn 5 (stamped_after clock (order_by_ts_desc l))).
  { rewrite Hpre at 1. rewrite firstn_firstn.
    rewrite Nat.min_l by lia. reflexivity. }
  split.
  - rewrite Hfirst, length_firstn. lia.
  - rewrite Hfirst, Forall_forall. intros x Hx.
    apply firstn_incl in Hx. unfold stamped_after in Hx.
    apply filter_In in Hx. destruct Hx as [_ Hx].
    apply Z.ltb_lt in Hx. exact Hx.
Qed.

(** X9: an upload can be missing from its own reply.  When the table
    already holds five rows stamped later than the clock reading the
    datastore gives the insert (rows of a writer whose clock runs ahead,
    or a clock set back), the 200 reply lists five rows, all stamped
    later than the new one: the row just inserted is in the table and
    not in the list. *)
Theorem later_stamps_hide_the_upload (penv : ProcessEnv) (i : Service)
    (e : Env) (req : Request) (p : Process) (t : Table) (r : Response) :
  method req = POST ->
  fst (serve (program penv i) e req p t) = Responded r ->
  status r = 200 ->
  (5 <= List.length (stamped_after (now e) (rows t)))%nat ->
  let t' := snd (snd (serve (program penv i) e req p t)) in
  exists listed new,
    field "rows" r = Some (Arr (map row_object listed))
    /\ List.length listed = 5%nat
    /\ Forall (fun x => now e < r_ts x) listed
    /\ rows t' = (rows t ++ [new])%list
    /\ ts new = now e
    /\ ~ In (select_list new) listed.
Proof.
  intros Hm Hr Hst H5 t'. subst t'.
  destruct (alive p) eqn:Ha.
  2:{ unfold serve in Hr. rewrite Ha in Hr. discriminate Hr. }
  destruct (request_cases req) as [[Hup [f Hf]]|[[Hup [err Hf]]|Hn]].
  - rewrite (upload_outcome penv i e req p t f Hup Ha Hf) in Hr |- *.
    destruct (insert_fault e) as [[ie|]|], (select_fault e) as [[se|]|];
      cbn [fst snd] in Hr |- *;
      try discriminate Hr; inversion Hr; subst r; try discriminate Hst.
    match goal with
    | |- context [select_recent ?x] => set (t1 := x)
    end.
    assert (Hafter : (5 <= List.length (stamped_after (now e) (rows t1)))%nat).
    { unfold t1, insert_request, stamped_after. cbn [rows].
      rewrite filter_app, length_app.
      unfold stamped_after in H5. lia. }
    destruct (later_rows_fill_the_list (now e) (rows t1) Hafter)
      as [Hlen Hall].
    assert (Hlisted : Forall (fun x => now e < r_ts x) (select_recent t1)).
    { unfold select_recent. rewrite Forall_forall in *.
      intros x Hx. apply in_map_iff in Hx. destruct Hx as [y [Hy Hin]].
      subst x. cbn. apply Hall, Hin. }
    exists (select_recent t1), (inserted_row (now e) "backend-a"
              (JSON_stringify (mkMeta (truthy (option_map buffer f))))
              (option_map buffer f) t).
    split; [reflexivity|]. split.
    { unfold select_recent. rewrite length_map. exact Hlen. }
    split; [exact Hlisted|]. split; [reflexivity|].
    split; [reflexivity|].
    intros Hin. rewrite Forall_forall in Hlisted.
    specialize (Hlisted _ Hin). cbn in Hlisted. lia.
  - rewrite (refused_upload_outcome penv i e req p t err Hup Ha Hf) in Hr.
    inversion Hr; subst r. discriminate Hst.
  - exfalso.
    destruct (serve_reply penv i e req p t Ha)
      as [[r' [Hr' [_ H404]]]|[_ [Hup _]]]; [|exact (Hn Hup)].
    rewrite Hr in Hr'. inversion Hr'; subst r'.
    assert (Hs : served i req = false).
    { unfold served. rewrite Hm.
      destruct (route_match "/api/a" (path req)) eqn:E; [|reflexivity].
      exfalso. apply Hn. split; assumption. }
    apply H404 in Hs. rewrite Hs in Hst. discriminate Hst.
Qed.

Import MoreSamples.

(** X9 at work: an upload stamped 50 into a table whose five rows are
    stamped 1000 and later. *)
Lemma later_stamps_hide_the_upload_witness :
  let out :=
    serve (program bare Short) (answering 50) (post_file ten_bytes)
      (BackendShort.start bare) ahead in
  (5 <= List.length (stamped_after 50 (rows ahead)))%nat
  /\ exists r,
       fst out = Responded r
       /\ status r = 200
       /\ exists listed new,
            field "rows" r = Some (Arr (map row_object listed))
            /\ List.length listed = 5%nat
            /\ Forall (fun x => now (answering 50) < r_ts x) listed
            /\ rows (snd (snd out)) = (rows ahead ++ [new])%list
            /\ ts new = now (answering 50)
            /\ ~ In (select_list new) listed.
Proof.
  assert (H5 : (5 <= List.length (stamped_after 50 (rows ahead)))%nat)
    by (cbn; lia).
  split; [exact H5|].
  eexists. split; [reflexivity|]. split; [reflexivity|].
  apply (later_stamps_hide_the_upload bare Short (answering 50)
           (post_file ten_bytes) (BackendShort.start bare) ahead);
    [reflexivity | reflexivity | reflexivity | exact H5].
Defined.

(* ================================================================== *)
(** * Uploads the middleware refuses *)
(* ================================================================== *)

Lemma single_refuses (name : string) (req : Request) :
  uploads req <> [] ->
  (forall f, uploads req <> [(name, f)]) ->
  single name (payload req) = inl unexpected_field.
Proof.
  unfold uploads, single.
  destruct (payload req) as [|parts [err|]];
    try (intros H; exfalso; apply H; reflexivity).
  destruct parts as [|[fieldname f] rest]; cbn.
  - intros H. contradiction.
  - intros _ Hone.
    destruct (fieldname =? name)%string eqn:E; [|reflexivity].
    apply String.eqb_eq in E. subst fieldname.
    destruct rest as [|[fieldname2 f2] rest]; cbn.
    + exfalso. apply (Hone f). reflexivity.
    + destruct (fieldname2 =? name)%string; reflexivity.
Qed.

(** X10: a POST to the upload route whose form holds anything but a
    single file under field [image] (a file under another field, or more
    than one file, even if all are under [image]) never reaches the
    handler.  It is answered 500 by the default error handler, with a
    page that shows the stack of the error [Unexpected field], or only
    the status message when [NODE_ENV] is [production]; the stack is
    written to the console unless [NODE_ENV] is [test]; the datastore is
    not queried and the table is unchanged, whether the datastore is up,
    down or silent. *)
Theorem refused_uploads (penv : ProcessEnv) (i : Service) (e : Env)
    (req : Request) (p : Process) (t : Table) :
  is_upload req ->
  alive p = true ->
  uploads req <> [] ->
  (forall f, uploads req <> [("image", f)]) ->
  serve (program penv i) e req p t =
  (Responded
     (mkResponse 500 cors_headers
        (if (node_env penv =? "production")%string
         then ErrorPage "Internal Server Error"
         else StackPage (mkError "Unexpected field"))),
   (mkProcess
      (stdio p ++
         (if (node_env penv =? "test")%string then []
          else [stderr_stack (mkError "Unexpected field")]))%list
      true,
    t)).
Proof.
  intros Hup Ha Hne Hone.
  exact (refused_upload_outcome penv i e req p t unexpected_field Hup Ha
           (single_refuses "image" req Hne Hone)).
Qed.

(** X10 at work: two files, both under [image], sent to a process
    started with [NODE_ENV=production] while the datastore is silent. *)
Lemma refused_uploads_witness :
  is_upload post_two_files
  /\ fst (serve (program production Full) stalled post_two_files
            (BackendA.start production) seeded)
     = Responded
         (mkResponse 500 cors_headers (ErrorPage "Internal Server Error"))
  /\ stdio (fst (snd (serve (program production Full) stalled post_two_files
                        (BackendA.start production) seeded)))
     = (stdio (BackendA.start production)
          ++ [stderr_stack (mkError "Unexpected field")])%list
  /\ snd (snd (serve (program production Full) stalled post_two_files
                 (BackendA.start production) seeded)) = seeded.
Proof.
  assert (Hup : is_upload post_two_files) by (split; reflexivity).
  assert (H := refused_uploads production Full stalled post_two_files
                 (BackendA.start production) seeded Hup eq_refl).
  split; [exact Hup|].
  rewrite H.
  - split; [reflexivity|]. split; reflexivity.
  - discriminate.
  - intros f. discriminate.
Defined.

(** X18: a POST to the upload route whose form cannot be read to its
    end (no boundary, a stream that ends inside the form, a field over
    the limits) never reaches the handler either, with or without a file
    in it.  The first error met, [Unexpected field] if a file part was
    refused before reading stopped and the read error otherwise, goes to
    the default error handler: the reply is 500, the datastore is not
    queried and the table is unchanged. *)
Theorem unreadable_forms (penv : ProcessEnv) (i : Service) (e : Env)
    (req : Request) (p : Process) (t : Table)
    (parts : list (string * File)) (err : Error) :
  is_upload req ->
  alive p = true ->
  payload req = Multipart parts (Some err) ->
  let first :=
    match single_from "image" None parts with
    | inl refusal => refusal
    | inr _ => err
    end in
  serve (program penv i) e req p t =
  (Responded
     (mkResponse 500 cors_headers
        (if (node_env penv =? "production")%string
         then ErrorPage "Internal Server Error"
         else StackPage first)),
   (mkProcess
      (stdio p ++
         (if (node_env penv =? "test")%string then []
          else [stderr_stack first]))%list
      true,
    t)).
Proof.
  intros Hup Ha Hb first. subst first.
  apply (refused_upload_outcome penv i e req p t _ Hup Ha).
  rewrite Hb. unfold single.
  destruct (single_from "image" None parts); reflexivity.
Qed.

(** X18 at work: the form of the example ends before its closing
    boundary; the process runs with [NODE_ENV=test]. *)
Lemma unreadable_forms_witness :
  is_upload post_unfinished
  /\ serve (program testing Short) (answering 5) post_unfinished
       (BackendShort.start testing) seeded
     = (Responded
          (mkResponse 500 cors_headers
             (StackPage (mkError "Unexpected end of form"))),
        (BackendShort.start testing, seeded)).
Proof.
  assert (Hup : is_upload post_unfinished) by (split; reflexivity).
  split; [exact Hup|].
  rewrite (unreadable_forms testing Short (answering 5) post_unfinished
             (BackendShort.start testing) seeded []
             (mkError "Unexpected end of form") Hup eq_refl eq_refl).
  reflexivity.
Defined.

(* ================================================================== *)
(** * More on base64 *)
(* ================================================================== *)

(** X11: different byte sequences never have the same base64 text, also
    when one is a prefix of the other or they differ only in trailing
    zero bytes: the [uploadedImage] of a reply identifies the bytes that
    were uploaded. *)
Theorem base64_texts_differ (b1 b2 : Buffer) :
  b1 <> b2 -> base64_encode b1 <> base64_encode b2.
Proof.
  intros Hne Heq. apply Hne.
  pose proof (base64_roundtrip b1) as H1.
  pose proof (base64_roundtrip b2) as H2.
  rewrite Heq in H1. rewrite H1 in H2. inversion H2. reflexivity.
Qed.

(** X11 at work: one zero byte and two zero bytes. *)
Lemma base64_texts_differ_witness :
  [x00] <> [x00; x00]
  /\ base64_encode [x00] = "AA=="
  /\ base64_encode [x00; x00] = "AAA="
  /\ base64_encode [x00] <> base64_encode [x00; x00].
Proof.
  assert (Hne : [x00] <> [x00; x00]) by discriminate.
  split; [exact Hne|]. split; [reflexivity|]. split; [reflexivity|].
  exact (base64_texts_differ [x00] [x00; x00] Hne).
Defined.

(** X12: the base64 text of [n] bytes has [4 * ceil(n / 3)] characters:
    a multiple of four, a third longer than the upload. *)
Theorem base64_length (b : Buffer) :
  String.length (base64_encode b)
  = (4 * ((List.length b + 2) / 3))%nat.
Proof.
  induction b as [|x|x y|x y z l IH] using list_ind3.
  - reflexivity.
  - reflexivity.
  - reflexivity.
  - change (base64_encode (x :: y :: z :: l))
      with (String (b64_char (sextet1 (Byte.to_N x)))
              (String (b64_char (sextet2 (Byte.to_N x) (Byte.to_N y)))
                 (String (b64_char (sextet3 (Byte.to_N y) (Byte.to_N z)))
                    (String (b64_char (sextet4 (Byte.to_N z)))
                       (base64_encode l))))).
    cbn [String.length List.length]. rewrite IH.
    replace (S (S (S (List.length l))) + 2)%nat
      with ((List.length l + 2) + 1 * 3)%nat by lia.
    rewrite Nat.div_add by lia. lia.
Qed.

(* ================================================================== *)
(** * The pool configuration and the deployment script *)
(* ================================================================== *)

(** X13: the pool uses TLS exactly when [DB_SSL] is the string
    [require], letter for letter; unset, empty or any other value
    ([REQUIRE], [true], ...) leaves the connection without TLS.  When TLS
    is on, the server certificate is not verified.  The port is the
    number 5432 exactly when [DB_PORT] is unset or empty, and the
    variable's text otherwise. *)
Theorem tls_exactly_on_require (env : Pool.DbEnv) :
  (Pool.ssl (Pool.config env) <> None
   <-> Pool.DB_SSL env = Some "require")
  /\ (forall o, Pool.ssl (Pool.config env) = Some o ->
        Pool.rejectUnauthorized o = false)
  /\ (Pool.port (Pool.config env) = Num 5432
      <-> Pool.DB_PORT env = None \/ Pool.DB_PORT env = Some "")
  /\ (forall s, s <> "" -> Pool.DB_PORT env = Some s ->
        Pool.port (Pool.config env) = Str s).
Proof.
  destruct env as [h po u pw d s]. cbn. split; [|split; [|split]].
  - destruct s as [v|]; cbn.
    + destruct (v =? "require")%string eqn:E.
      * apply String.eqb_eq in E. subst v. split; [reflexivity | discriminate].
      * apply String.eqb_neq in E. split.
        -- intros H. exfalso. apply H. reflexivity.
        -- intros H. inversion H. contradiction.
    + split; [intros H; exfalso; apply H; reflexivity | discriminate].
  - intros o. destruct (Pool.strict_equal s "require"); intros H;
      inversion H. reflexivity.
  - unfold or_default. destruct po as [[|c v]|]; cbn; split; auto;
      try discriminate.
    intros [H|H]; discriminate H.
  - intros v Hv H. inversion H; subst. unfold or_default.
    destruct (v =? "")%string eqn:E; [|reflexivity].
    apply String.eqb_eq in E. contradiction.
Qed.

Import DeployScript.

(** X14: the script deploys to [dev], [qa] or [prod] and to nothing else.
    Called without an argument or with any other first argument, it ends
    with status 1 before running a single [az] or [kubectl] command,
    whatever those commands would have returned. *)
Theorem deploy_rejects_unknown_environment (args : list string)
    (status : Command -> Z) :
  ~ known_environment (hd "" args) ->
  exit_status (script args status) = 1
  /\ executed (script args status) = [].
Proof.
  intros Hn. unfold script.
  destruct (hd "" args =? "")%string; [split; reflexivity|].
  destruct (hd "" args =? "dev")%string eqn:Ed.
  { exfalso. apply Hn. left. apply String.eqb_eq, Ed. }
  destruct (hd "" args =? "qa")%string eqn:Eq.
  { exfalso. apply Hn. right. left. apply String.eqb_eq, Eq. }
  destruct (hd "" args =? "prod")%string eqn:Ep.
  { exfalso. apply Hn. right. right. apply String.eqb_eq, Ep. }
  split; reflexivity.
Qed.

(** X14 at work: no argument, and a near miss. *)
Lemma deploy_rejects_unknown_environment_witness :
  ~ known_environment (hd "" ["Prod"; "dev"])
  /\ exit_status (script ["Prod"; "dev"] all_succeed) = 1
  /\ executed (script ["Prod"; "dev"] all_succeed) = []
  /\ output (script [] all_succeed)
     = ["Usage: ./deploy-backend.sh <environment>";
        "Example: ./deploy-backend.sh dev"].
Proof.
  assert (Hn : ~ known_environment (hd "" ["Prod"; "dev"])).
  { intros [H|[H|H]]; discriminate H. }
  destruct (deploy_rejects_unknown_environment ["Prod"; "dev"] all_succeed Hn)
    as [H1 H2].
  split; [exact Hn|]. split; [exact H1|]. split; [exact H2 | reflexivity].
Defined.

(** [set -e], step by step: the commands run are those of the script up
    to the first failure, whose status is the script's. *)
Lemma run_steps_executed (status : Command -> Z) (steps : list Step) :
  executed (run_steps status steps) = attempted status (commands_of steps).
Proof.
  induction steps as [|[line|c] rest IH]; cbn.
  - reflexivity.
  - exact IH.
  - destruct (status c =? 0); cbn; [rewrite IH|]; reflexivity.
Qed.

Lemma run_steps_exit (status : Command -> Z) (steps : list Step) :
  (exit_status (run_steps status steps) = 0
   <-> Forall (fun c => status c = 0) (commands_of steps))
  /\ (exit_status (run_steps status steps) <> 0 ->
      exists before c,
        executed (run_steps status steps) = (before ++ [c])%list
        /\ status c <> 0
        /\ exit_status (run_steps status steps) = status c).
Proof.
  induction steps as [|[line|c] rest [IH1 IH2]]; cbn.
  - split; [split; [constructor | reflexivity] | intros H; contradiction].
  - split; assumption.
  - destruct (status c =? 0) eqn:E; cbn.
    + apply Z.eqb_eq in E. split.
      * split.
        -- intros H. constructor; [exact E | apply IH1, H].
        -- intros H. inversion H; subst. apply IH1. assumption.
      * intros H. destruct (IH2 H) as [before [c' [H1 [H2 H3]]]].
        exists (c :: before), c'. rewrite H1. repeat split; assumption.
    + apply Z.eqb_neq in E. split.
      * split; [intros H; contradiction|].
        intros H. inversion H; subst. contradiction.
      * intros _. exists [], c. repeat split; assumption.
Qed.

(** A command reached under [set -e] has every command before it
    behind it, succeeded. *)
Lemma attempted_reaches (status : Command -> Z) (before after : list Command)
    (c : Command) :
  ~ In c before ->
  In c (attempted status (before ++ c :: after)) ->
  Forall (fun x => status x = 0) before.
Proof.
  induction before as [|x before IH]; cbn; intros Hnot Hin.
  - constructor.
  - destruct (status x =? 0) eqn:E.
    + apply Z.eqb_eq in E. constructor; [exact E|].
      apply IH; [tauto|]. destruct Hin as [Hin|Hin]; [|exact Hin].
      exfalso. apply Hnot. left. exact Hin.
    + exfalso. destruct Hin as [Hin|[]]. apply Hnot. left. exact Hin.
Qed.

(** X15: a deployment to a known environment runs the seven commands of
    the plan for that environment, in order, every registry, resource
    group, cluster, manifest directory and namespace named after that
    environment, and stops at the first command that fails.  So the
    manifests are applied only after the login, both image builds and
    the credentials succeeded; and the script ends with status 0 exactly
    when all seven commands succeeded, and otherwise with the status of
    the failed command, the last one it ran. *)
Theorem deploy_follows_the_plan (args : list string)
    (status : Command -> Z) :
  known_environment (hd "" args) ->
  let ENV := hd "" args in
  let r := script args status in
  executed r = attempted status (plan ENV)
  /\ (exit_status r = 0 <-> Forall (fun c => status c = 0) (plan ENV))
  /\ (exit_status r <> 0 ->
      exists before c,
        executed r = (before ++ [c])%list
        /\ status c <> 0
        /\ exit_status r = status c)
  /\ (In (apply_manifests ENV) (executed r) ->
      status (login ENV) = 0
      /\ status (build "backend-a" ENV) = 0
      /\ status (build "backend-b" ENV) = 0
      /\ status (get_credentials ENV) = 0).
Proof.
  intros Hk ENV r. subst ENV r.
  assert (Hscript :
    exists steps,
      script args status = run_steps status steps
      /\ commands_of steps = plan (hd "" args)).
  { unfold script.
    destruct Hk as [H|[H|H]]; rewrite H; eexists; split; reflexivity. }
  destruct Hscript as [steps [Hs Hc]]. rewrite Hs.
  destruct (run_steps_exit status steps) as [H1 H2].
  rewrite run_steps_executed, Hc in *.
  split; [reflexivity|]. split; [exact H1|]. split; [exact H2|].
  intros Hin.
  assert (Hbefore :
    Forall (fun x => status x = 0)
      [login (hd "" args); build "backend-a" (hd "" args);
       build "backend-b" (hd "" args); get_credentials (hd "" args)]).
  { apply (attempted_reaches status _
             [get_pods (hd "" args); get_services (hd "" args)]
             (apply_manifests (hd "" args))).
    - intros [H|[H|[H|[H|[]]]]]; discriminate H.
    - exact Hin. }
  inversion Hbefore as [|? ? Ha Hb1]; subst.
  inversion Hb1 as [|? ? Hb Hb2]; subst.
  inversion Hb2 as [|? ? Hc' Hb3]; subst.
  inversion Hb3 as [|? ? Hd _]; subst.
  repeat split; assumption.
Qed.

(** X15 at work: a deployment to [qa] in which the build of [backend-b]
    fails with status 2. *)
Lemma deploy_follows_the_plan_witness :
  known_environment (hd "" ["qa"])
  /\ executed (script ["qa"] second_build_fails)
     = [login "qa"; build "backend-a" "qa"; build "backend-b" "qa"]
  /\ exit_status (script ["qa"] second_build_fails) = 2
  /\ ~ In (apply_manifests "qa") (executed (script ["qa"] second_build_fails))
  /\ exit_status (script ["qa"] all_succeed) = 0.
Proof.
  assert (Hk : known_environment (hd "" ["qa"])) by (right; left; reflexivity).
  destruct (deploy_follows_the_plan ["qa"] second_build_fails Hk)
    as [H1 _].
  destruct (deploy_follows_the_plan ["qa"] all_succeed Hk)
    as [_ [H2 _]].
  split; [exact Hk|]. split; [rewrite H1; reflexivity|].
  split; [reflexivity|]. split.
  - rewrite H1. cbn. intros [H|[H|[H|[]]]]; discriminate H.
  - apply H2. repeat constructor.
Defined.

(* ================================================================== *)
(** * Failures, logs, and what later requests see *)
(* ================================================================== *)

(** X16: the console is an error log.  A reply with status 500, whether
    the datastore rejected a statement or the upload was refused, comes
    with exactly one new console entry, with one exception: when
    [NODE_ENV] is [test] the framework does not log the error of a
    refused upload, and the console stays as it was.  A reply with any
    other status (200, 404) leaves the console as it was.  Successes are
    not logged. *)
Theorem only_errors_are_logged (penv : ProcessEnv) (i : Service) (e : Env)
    (req : Request) (p : Process) (t : Table) (r : Response) :
  fst (serve (program penv i) e req p t) = Responded r ->
  let p' := fst (snd (serve (program penv i) e req p t)) in
  (status r = 500 ->
     (exists line, stdio p' = (stdio p ++ [line])%list)
     \/ (node_env penv = "test"
         /\ (exists err, single "image" (payload req) = inl err)
         /\ stdio p' = stdio p))
  /\ (status r = 500 -> node_env penv <> "test" ->
      exists line, stdio p' = (stdio p ++ [line])%list)
  /\ (status r <> 500 -> stdio p' = stdio p).
Proof.
  intros Hr p'. subst p'.
  destruct (alive p) eqn:Ha.
  2:{ unfold serve in Hr. rewrite Ha in Hr. discriminate Hr. }
  destruct (request_cases req) as [[Hup [f Hf]]|[[Hup [err Hf]]|Hn]].
  - rewrite (upload_outcome penv i e req p t f Hup Ha Hf) in Hr |- *.
    destruct (insert_fault e) as [[ie|]|], (select_fault e) as [[se|]|];
      cbn [fst snd] in Hr |- *; try discriminate Hr;
      inversion Hr; subst r; cbn; (split; [|split]);
      try (intros H; left; eexists; reflexivity);
      try (intros H _; eexists; reflexivity);
      try (intros H; discriminate H);
      try (intros H _; discriminate H);
      try reflexivity;
      intros H; exfalso; apply H; reflexivity.
  - rewrite (refused_upload_outcome penv i e req p t err Hup Ha Hf) in Hr |- *.
    inversion Hr; subst r. cbn [fst snd stdio status].
    destruct (node_env penv =? "test")%string eqn:Et.
    + apply String.eqb_eq in Et. rewrite app_nil_r. split; [|split].
      * intros _. right. split; [exact Et|]. split; [|reflexivity].
        exists err. exact Hf.
      * intros _ Hne. contradiction.
      * intros H. exfalso. apply H. reflexivity.
    + split; [|split].
      * intros _. left. eexists. reflexivity.
      * intros _ _. eexists. reflexivity.
      * intros H. exfalso. apply H. reflexivity.
  - rewrite (other_requests_are_quiet penv i e req p t Hn). cbn [fst].
    assert (Hst : status r <> 500).
    { intros Hst.
      destruct (serve_reply penv i e req p t Ha)
        as [[r' [Hr' [_ H404]]]|[_ [Hup _]]]; [|exact (Hn Hup)].
      rewrite Hr in Hr'. inversion Hr'; subst r'.
      destruct req as [m path b f]. unfold serve in Hr. rewrite Ha in Hr.
      assert (Hapi : m = POST -> route_match "/api/a" path = false).
      { intros ->. destruct (route_match "/api/a" path) eqn:E; [|reflexivity].
        exfalso. apply Hn. split; [reflexivity | exact E]. }
      destruct m;
        try rewrite (Hapi eq_refl) in *;
        destruct (route_match "/" path) eqn:Hroot,
                 (route_match "/health" path) eqn:Hhealth,
                 (route_match "/api/a" path) eqn:Ha';
        destruct i; cbn in Hr; rewrite ?Hroot, ?Hhealth, ?Ha' in Hr;
        cbn in Hr; try discriminate (Hapi eq_refl);
        inversion Hr; subst r; discriminate Hst. }
    split; [|split].
    + intros H. contradiction.
    + intros H. contradiction.
    + intros _. reflexivity.
Qed.

(** X16 at work: a failed upload adds its line, a health check adds
    none. *)
Lemma only_errors_are_logged_witness :
  stdio (fst (snd (serve (program bare Full) down (post_file ten_bytes)
                     (BackendA.start bare) Pg.empty)))
  = [stdout_line "backend-a listening on port 8080";
     stderr_line "Database error:" refused]
  /\ stdio (fst (snd (serve (program bare Full) down (get_of "/health")
                        (BackendA.start bare) Pg.empty)))
     = stdio (BackendA.start bare).
Proof.
  split.
  - reflexivity.
  - apply (proj2 (proj2 (only_errors_are_logged bare Full down
                            (get_of "/health") (BackendA.start bare)
                            Pg.empty _ eq_refl))).
    discriminate.
Defined.

(** X17: a request answered 500 can have written its row, and later
    replies show it.  An upload whose insert goes through and whose
    read-back fails is answered 500; the next upload that the datastore
    answers, by either program, gets a 200 whose [rows] start with its
    own row followed by the row of the failed request. *)
Theorem failed_read_back_leaves_a_visible_row (penv : ProcessEnv)
    (i j : Service) (e1 e2 : Env) (req1 req2 : Request) (p1 p2 : Process)
    (t : Table) (f1 f2 : option File) (err : Error) (t0 : Z) :
  is_upload req1 -> is_upload req2 ->
  alive p1 = true -> alive p2 = true ->
  single "image" (payload req1) = inr f1 ->
  single "image" (payload req2) = inr f2 ->
  insert_fault e1 = None -> select_fault e1 = Some (Rejects err) ->
  first_fault e2 = None ->
  chronological (rows t) -> stamped_by t0 (rows t) ->
  t0 < now e1 -> now e1 < now e2 ->
  let out1 := serve (program penv i) e1 req1 p1 t in
  let out2 := serve (program penv j) e2 req2 p2 (snd (snd out1)) in
  status_of (fst out1) = Some 500
  /\ exists r row1 row2 older,
       fst out2 = Responded r
       /\ status r = 200
       /\ rows (snd (snd out2)) = (rows t ++ [row1; row2])%list
       /\ field "rows" r
          = Some (Arr (map row_object
                         (select_list row2 :: select_list row1 :: older)))
       /\ image row1 = option_map buffer f1
       /\ ts row1 = now e1.
Proof.
  intros Hu1 Hu2 Ha1 Ha2 Hf1 Hf2 Hi1 Hs1 Hok2 Hchron Hstamp Hlt1 Hlt2
         out1 out2.
  subst out1 out2.
  rewrite (upload_outcome penv i e1 req1 p1 t f1 Hu1 Ha1 Hf1), Hi1, Hs1.
  cbn [fst snd status_of status]. split; [reflexivity|].
  unfold first_fault in Hok2.
  destruct (insert_fault e2) eqn:Hi2; [discriminate|].
  rewrite (upload_outcome penv j e2 req2 p2 _ f2 Hu2 Ha2 Hf2), Hi2, Hok2.
  cbn [fst snd].
  match goal with
  | |- context [insert_request (now e1) ?n ?m ?im t] =>
      destruct (insert_keeps_chronology t t0 (now e1) n m im
                  Hchron Hstamp Hlt1) as [Hc1 Hst1];
      set (t1 := insert_request (now e1) n m im t) in *
  end.
  match goal with
  | |- context [insert_request (now e2) ?n ?m ?im t1] =>
      destruct (insert_keeps_chronology t1 (now e1) (now e2) n m im
                  Hc1 Hst1 Hlt2) as [Hc2 _];
      set (t2 := insert_request (now e2) n m im t1) in *
  end.
  rewrite (select_recent_chronological t2 Hc2).
  assert (Hrows : rows t2
                  = (rows t ++ [inserted_row (now e1) "backend-a"
                                  (JSON_stringify
                                     (mkMeta (truthy (option_map buffer f1))))
                                  (option_map buffer f1) t;
                                inserted_row (now e2) "backend-a"
                                  (JSON_stringify
                                     (mkMeta (truthy (option_map buffer f2))))
                                  (option_map buffer f2) t1])%list).
  { unfold t2, t1, insert_request. cbn [rows].
    rewrite <- app_assoc. reflexivity. }
  assert (Hnew : newest_first t2
                 = select_list (inserted_row (now e2) "backend-a"
                                  (JSON_stringify
                                     (mkMeta (truthy (option_map buffer f2))))
                                  (option_map buffer f2) t1)
                   :: select_list (inserted_row (now e1) "backend-a"
                                     (JSON_stringify
                                        (mkMeta
                                           (truthy (option_map buffer f1))))
                                     (option_map buffer f1) t)
                   :: map select_list (firstn 3 (rev (rows t)))).
  { unfold newest_first. rewrite Hrows, rev_app_distr.
    cbn [rev app]. rewrite !firstn_cons. reflexivity. }
  rewrite Hnew.
  eexists. eexists. eexists.
  exists (map select_list (firstn 3 (rev (rows t)))).
  split; [reflexivity|]. split; [reflexivity|].
  split; [exact Hrows|]. split; [reflexivity|].
  split; reflexivity.
Qed.

(** X17 at work: the datastore loses the first read-back. *)
Lemma failed_read_back_leaves_a_visible_row_witness :
  let out1 :=
    serve (program bare Full) lost_after_insert (post_file ten_bytes)
      (BackendA.start bare) seeded in
  let out2 :=
    serve (program bare Short) (answering 60) post_nothing
      (BackendShort.start bare) (snd (snd out1)) in
  status_of (fst out1) = Some 500
  /\ exists r row1 row2 older,
       fst out2 = Responded r
       /\ status r = 200
       /\ rows (snd (snd out2)) = (rows seeded ++ [row1; row2])%list
       /\ field "rows" r
          = Some (Arr (map row_object
                         (select_list row2 :: select_list row1 :: older)))
       /\ image row1 = option_map buffer (Some (mkFile ten_bytes))
       /\ ts row1 = now lost_after_insert.
Proof.
  apply (failed_read_back_leaves_a_visible_row bare Full Short
           lost_after_insert (answering 60) (post_file ten_bytes)
           post_nothing (BackendA.start bare) (BackendShort.start bare)
           seeded (Some (mkFile ten_bytes)) None refused 30);
    try reflexivity; try (split; reflexivity).
  - repeat constructor; cbn; lia.
  - repeat constructor; cbn; lia.
Defined.
